(** * backtrader: the back-testing broker ([backtrader/broker.py])

    A shallow embedding of [BrokerBack]: the cash account, the position map,
    the queue of pending orders and the per-bar matching step [next].

    Conventions of the embedding.
    - Prices and cash are Python floats in the source; they are idealised
      here as exact rationals ([Q]).  Order comparisons ([<=], [>=], [>],
      [!=]) are the same on both; sums are compared with [==] ([Qeq]) where
      a statement regroups them.
    - Sizes are signed integers ([Z]).
    - [Order] objects are shared and mutated in place (the same object sits
      in [orders], [pending] and [notifs]); they live in an explicit object
      store [heap] and the broker's containers hold references.
    - Data feeds are owned by the driver; the broker only reads them.  A bar
      is a [Data] record whose lines are indexed by relative offsets, as in
      [data.close[0]] and [data.close[-1]]; the step takes the feeds of the
      current bar as an environment [DataId -> Data].
    - [comminfo.py], [datapos.py] and [order.py] are not part of the checked
      sources: [CommissionInfo], [Position] and [Order] are modelled from the
      specification, each marked as such.
    - Of [backtrader/strategy.py] the minimum-period arithmetic of
      [dopostinit] and [_oncepost] and the order bookkeeping are embedded;
      of [backtrader/indicators/rsi.py] the up-day and down-day
      indicators, bar by bar.  The line objects, the sizer and the moving
      averages are not part of the checked sources. *)

From Stdlib Require Import ZArith QArith Qabs Lia Lqa.
From stdpp Require Import gmap strings list fin_maps.

Local Open Scope Q_scope.

(** ** Numbers and time stamps *)

(** Python's [a >= b], [a > b], [a <= b] on prices. *)
Definition Qle_b (a b : Q) : bool := Qle_bool a b.
Definition Qge_b (a b : Q) : bool := Qle_bool b a.
Definition Qgt_b (a b : Q) : bool := negb (Qle_bool a b).

(** A [datetime.datetime]: the proleptic ordinal of its [date()] and the
    microseconds since midnight of its [time()]. *)
Record DateTime := mkDateTime { date : Z; time : Z }.

(** [a > b] on datetimes. *)
Definition dt_gt (a b : DateTime) : bool :=
  (date b <? date a)%Z || ((date b =? date a)%Z && (time b <? time a)%Z).

(** Identity of a data feed object (the key of [positions]) and of an
    [Order] object. *)
Abbreviation DataId := positive.
Abbreviation OrderRef := positive.

(** The view of one data feed at the current bar.  Offset [0] is the current
    bar, [-1] the previous one. *)
Record Data := mkData {
  _name : option string;
  open : Z -> Q;
  high : Z -> Q;
  low : Z -> Q;
  close : Z -> Q;
  datetime : Z -> DateTime
}.

(** The interpreters the module targets ([from __future__ import ...] and
    [six]).  They differ on ordering a number against a non-number. *)
Inductive PyVersion := Python2 | Python3.

Inductive Exn :=
  | TypeError     (* unorderable types *)
  | IndexError    (* pop from an empty deque *)
  | DanglingRef.  (* model only: a reference without an object *)

Inductive Outcome := Normal | Raised (e : Exn).

(** [x <= open] where [open] is the builtin function, not a price: CPython 2
    orders every number before every non-number, so the test is true;
    Python 3 raises [TypeError]. *)
Definition le_builtin (v : PyVersion) (x : Q) : option bool :=
  match v with
  | Python2 => Some true
  | Python3 => None
  end.

(** ** Positions *)

Module Position.

(** Modelled from the spec: [datapos.py] is missing.  Signed size and
    average entry price. *)
Record t := mk { size : Z; price : Q }.

(** [Position()]: the default value of the [defaultdict]. *)
Definition empty : t := mk 0 0.

(** Modelled from the spec: [datapos.py] is missing.  [update] returns
    the mutated position and the tuple the caller unpacks; its order is
    the one of the call site in [_execute]:
    [psize, pprice, opened, closed = position.update(size, price)].
    - current size zero or of the sign of [dsize]: everything opens, the
      average price is the size-weighted blend;
    - opposite signs: up to [min |size| |dsize|] closes (signed as
      [dsize]), the excess opens at the fill price; the average price is
      unchanged by the closing portion. *)
Definition update (p : t) (dsize : Z) (dprice : Q)
  : t * (Z * Q * Z * Z) :=
  let old := size p in
  let new := (old + dsize)%Z in
  if (old * dsize <? 0)%Z then
    if (Z.abs dsize <=? Z.abs old)%Z then
      (mk new (price p), (new, price p, 0%Z, dsize))
    else
      (mk new dprice, (new, dprice, new, (- old)%Z))
  else
    let blend :=
      (price p * inject_Z old + dprice * inject_Z dsize) / inject_Z new in
    (mk new blend, (new, blend, dsize, 0%Z)).

End Position.

Abbreviation Position := Position.t.

(** ** Commission schemes *)

Module CommissionInfo.

(** Modelled from the spec: [comminfo.py] is missing.  Commission rate,
    optional margin per unit, multiplier.  A scheme with a margin value is a
    margined (futures-like) instrument, one without is a cash instrument. *)
Record t := mk {
  commission : Q;
  margin : option Q;
  mult : Q
}.

(** Modelled from the spec: [comminfo.py] is missing.  operationCost:
    [price * |size| * multiplier] for cash instruments, [margin * |size|]
    for margined ones. *)
Definition getoperationcost (ci : t) (size : Z) (price : Q) : Q :=
  match margin ci with
  | None => price * inject_Z (Z.abs size) * mult ci
  | Some m => m * inject_Z (Z.abs size)
  end.

(** Modelled from the spec: [comminfo.py] is missing.  commission:
    [price * |size| * multiplier * rate] for cash instruments, the
    per-contract fee [|size| * rate] for margined ones. *)
Definition getcomm_pricesize (ci : t) (size : Z) (price : Q) : Q :=
  match margin ci with
  | None => price * inject_Z (Z.abs size) * mult ci * commission ci
  | Some _ => inject_Z (Z.abs size) * commission ci
  end.

(** Modelled from the spec: [comminfo.py] is missing.  markToMarket: [0]
    for cash instruments, the price change times size times multiplier for
    margined ones.  The argument order is the one of the call sites in
    [broker.py]: [cashadjust(size, price, newprice)]; the sweep passes
    [(pos.size, close[-1], close[0])] and the spec fixes its value to
    [(close[0] - close[-1]) * size * multiplier]. *)
Definition cashadjust (ci : t) (size : Z) (price newprice : Q) : Q :=
  match margin ci with
  | None => 0
  | Some _ => (newprice - price) * inject_Z size * mult ci
  end.

(** Modelled from the spec: [comminfo.py] is missing.  positionValue:
    [size * close * multiplier] for cash instruments, [margin * size] for
    margined ones. *)
Definition getvalue (ci : t) (position : Position)
    (price : Q) : Q :=
  match margin ci with
  | None => inject_Z (Position.size position) * price
            * mult ci
  | Some m => m * inject_Z (Position.size position)
  end.

End CommissionInfo.

Abbreviation CommissionInfo := CommissionInfo.t.

(** ** Orders *)

Module Order.

(** [BuyOrder] and [SellOrder], told apart with [isinstance]. *)
Inductive OrdType := Buy | Sell.

Inductive ExecType := Market | Close | Limit | Stop | StopLimit.

Inductive Status :=
  | Created | Submitted | Accepted | Partial
  | Completed | Canceled | Expired | Margin | Rejected.

(** The fill record written by [execute]. *)
Record Fill := mkFill {
  fill_dt : DateTime;
  fill_size : Z;
  fill_price : Q;
  fill_closed : Z;
  fill_closedvalue : Q;
  fill_closedcomm : Q;
  fill_opened : Z;
  fill_openedvalue : Q;
  fill_openedcomm : Q;
  fill_margin : option Q;
  fill_psize : Z;
  fill_pprice : Q
}.

(** Modelled from the spec: [order.py] is missing.  The fields are the
    ones [broker.py] reads ([data], [exectype], [triggered],
    [created.price], [created.pricelimit], [executed.remsize]) and the
    ones of the spec's data model (side, validity, status, fill
    record). *)
Record t := mk {
  data : DataId;
  ordtype : OrdType;
  exectype : ExecType;
  created_size : Z;
  created_price : Q;
  created_pricelimit : Q;
  valid : option DateTime;
  status : Status;
  triggered : bool;
  executed_remsize : Z;
  executed : option Fill
}.

Definition set_status (s : Status) (o : t) : t :=
  mk (data o) (ordtype o) (exectype o) (created_size o) (created_price o)
     (created_pricelimit o) (valid o) s (triggered o)
     (executed_remsize o) (executed o).

(** [order.triggered = True] *)
Definition set_triggered (b : bool) (o : t) : t :=
  mk (data o) (ordtype o) (exectype o) (created_size o) (created_price o)
     (created_pricelimit o) (valid o) (status o) b
     (executed_remsize o) (executed o).

(** Modelled from the spec: Created/Submitted -> Accepted, always. *)
Definition accept (o : t) : t := set_status Accepted o.

(** Modelled from the spec: Accepted -> Canceled. *)
Definition cancel (o : t) : t := set_status Canceled o.

(** Modelled from the spec: Accepted -> Expired when the validity is set
    and the current bar's time stamp exceeds it; otherwise a no-op.  The
    result says whether the order made the transition. *)
Definition expire (o : t) (now : DateTime) : bool * t :=
  match valid o with
  | Some until =>
      if dt_gt now until then (true, set_status Expired o) else (false, o)
  | None => (false, o)
  end.

(** Modelled from the spec: Accepted -> Completed; records the fill and
    zeroes the remaining size (fills are total). *)
Definition execute (o : t) (f : Fill) : t :=
  mk (data o) (ordtype o) (exectype o) (created_size o) (created_price o)
     (created_pricelimit o) (valid o) Completed (triggered o)
     0%Z (Some f).

(** Modelled from the spec: alive iff the status is Accepted (whatever the
    trigger state) with a nonzero remaining size. *)
Definition alive (o : t) : bool :=
  match status o with
  | Accepted => negb (executed_remsize o =? 0)%Z
  | _ => false
  end.

(** Modelled from the spec: the constructors [BuyOrder(...)] and
    [SellOrder(...)].  A buy has a positive size and a sell a negative
    one; the remaining size is the full size until the fill.  The call
    passes one reference price, recorded as trigger and as limit. *)
Definition create (side : OrdType) (d : DataId) (size : Z)
    (price : Q) (et : ExecType) (until : option DateTime) : t :=
  let signed := match side with
                | Buy => Z.abs size
                | Sell => (- Z.abs size)%Z
                end in
  mk d side et signed price price until Created false signed None.

End Order.

Abbreviation Order := Order.t.

(** ** The broker *)

(** [BrokerBack]'s attributes.  [cash] is [self.params.cash].  The dict
    [comminfo] always holds the key [None] (set by [__init__], never
    deleted): that entry is [comminfo_None], the named ones are in
    [comminfo].  [heap] is the store of the [Order] objects the lists
    refer to. *)
Record BrokerBack := mkBroker {
  startingcash : Q;
  cash : Q;
  orders : list OrderRef;
  pending : list OrderRef;
  positions : gmap DataId Position;
  comminfo_None : CommissionInfo;
  comminfo : gmap string CommissionInfo;
  notifs : list OrderRef;
  heap : gmap OrderRef Order
}.

Definition set_cash (c : Q) (b : BrokerBack) : BrokerBack :=
  mkBroker (startingcash b) c (orders b) (pending b) (positions b)
           (comminfo_None b) (comminfo b) (notifs b) (heap b).

Definition set_orders (l : list OrderRef) (b : BrokerBack) : BrokerBack :=
  mkBroker (startingcash b) (cash b) l (pending b) (positions b)
           (comminfo_None b) (comminfo b) (notifs b) (heap b).

Definition set_pending (l : list OrderRef) (b : BrokerBack) : BrokerBack :=
  mkBroker (startingcash b) (cash b) (orders b) l (positions b)
           (comminfo_None b) (comminfo b) (notifs b) (heap b).

Definition set_positions (m : gmap DataId Position) (b : BrokerBack)
  : BrokerBack :=
  mkBroker (startingcash b) (cash b) (orders b) (pending b) m
           (comminfo_None b) (comminfo b) (notifs b) (heap b).

Definition set_heap (h : gmap OrderRef Order) (b : BrokerBack)
  : BrokerBack :=
  mkBroker (startingcash b) (cash b) (orders b) (pending b) (positions b)
           (comminfo_None b) (comminfo b) (notifs b) h.

(** Writing the fields of the object behind [r]. *)
Definition store (r : OrderRef) (o : Order) (b : BrokerBack) : BrokerBack :=
  set_heap (<[r := o]> (heap b)) b.

(** [__init__], with the parameters [cash] and [commission]. *)
Definition init (cash0 : Q) (commission0 : CommissionInfo) : BrokerBack :=
  mkBroker cash0 cash0 [] [] ∅ commission0 ∅ [] ∅.

Definition getcash (b : BrokerBack) : Q := cash b.

Definition setcash (c : Q) (b : BrokerBack) : BrokerBack :=
  mkBroker c c (orders b) (pending b) (positions b)
           (comminfo_None b) (comminfo b) (notifs b) (heap b).

Definition getcommissioninfo (b : BrokerBack) (d : Data) : CommissionInfo :=
  match _name d with
  | None => comminfo_None b
  | Some n =>
      match comminfo b !! n with
      | Some ci => ci
      | None => comminfo_None b
      end
  end.

Definition addcommissioninfo (ci : CommissionInfo) (name : option string)
    (b : BrokerBack) : BrokerBack :=
  match name with
  | None =>
      mkBroker (startingcash b) (cash b) (orders b) (pending b)
               (positions b) ci (comminfo b) (notifs b) (heap b)
  | Some n =>
      mkBroker (startingcash b) (cash b) (orders b) (pending b)
               (positions b) (comminfo_None b) (<[n := ci]> (comminfo b))
               (notifs b) (heap b)
  end.

Definition setcommission (commission : Q) (margin : option Q) (mult : Q)
    (name : option string) (b : BrokerBack) : BrokerBack :=
  addcommissioninfo (CommissionInfo.mk commission margin mult) name b.

(** [self.notifs.append(order)] *)
Definition notify (r : OrderRef) (b : BrokerBack) : BrokerBack :=
  mkBroker (startingcash b) (cash b) (orders b) (pending b) (positions b)
           (comminfo_None b) (comminfo b) (notifs b ++ [r]) (heap b).

(** [deque.remove(x)]: drops the first occurrence. *)
Fixpoint remove_first (r : OrderRef) (l : list OrderRef) : list OrderRef :=
  match l with
  | [] => []
  | x :: l' => if decide (x = r) then l' else x :: remove_first r l'
  end.

(** [self.pending.remove(order)]: [None] stands for the [ValueError] of an
    order that is not in the deque. *)
Definition deque_remove (r : OrderRef) (l : list OrderRef)
  : option (list OrderRef) :=
  if decide (r ∈ l) then Some (remove_first r l) else None.

(** [cancel]: the [ValueError] is caught and answered with [False]; nothing
    else in the method can raise. *)
Definition cancel (r : OrderRef) (b : BrokerBack) : bool * BrokerBack :=
  match deque_remove r (pending b) with
  | None => (false, b)
  | Some l =>
      let b1 := set_pending l b in
      let b2 := set_heap (alter Order.cancel r (heap b1)) b1 in
      (true, notify r b2)
  end.

(** [self.positions[data]] on the [defaultdict]: a missing key is inserted
    with the default [Position()]. *)
Definition positions_getitem (d : DataId) (b : BrokerBack)
  : Position * BrokerBack :=
  match positions b !! d with
  | Some p => (p, b)
  | None =>
      (Position.empty, set_positions (<[d := Position.empty]> (positions b)) b)
  end.

Definition getposition (d : DataId) (b : BrokerBack)
  : Position * BrokerBack :=
  positions_getitem d b.

(** The keys of the position dict, in its iteration order. *)
Definition positions_keys (b : BrokerBack) : list DataId :=
  (map_to_list (positions b)).*1.

(** The loop of [getvalue]: the accumulator [pos_value] and the broker. *)
Fixpoint getvalue_loop (feeds : DataId -> Data) (ds : list DataId)
    (pos_value : Q) (b : BrokerBack) : Q * BrokerBack :=
  match ds with
  | [] => (pos_value, b)
  | d :: ds' =>
      let ci := getcommissioninfo b (feeds d) in
      let '(position, b1) := positions_getitem d b in
      getvalue_loop feeds ds'
        (pos_value + CommissionInfo.getvalue ci position (close (feeds d) 0))
        b1
  end.

(** [getvalue(datas=None)]: [datas or self.positions.keys()] takes the keys
    when [datas] is [None] or empty. *)
Definition getvalue (feeds : DataId -> Data) (datas : option (list DataId))
    (b : BrokerBack) : Q * BrokerBack :=
  let ds := match datas with
            | None | Some [] => positions_keys b
            | Some l => l
            end in
  let '(pos_value, b1) := getvalue_loop feeds ds 0 b in
  (cash b1 + pos_value, b1).

(** [submit]: accept, log, enqueue. *)
Definition submit (r : OrderRef) (b : BrokerBack) : OrderRef * BrokerBack :=
  let b1 := set_heap (alter Order.accept r (heap b)) b in
  let b2 := set_orders (orders b1 ++ [r]) b1 in
  (r, set_pending (pending b2 ++ [r]) b2).

(** Allocation of a new [Order] object. *)
Definition new_order (o : Order) (b : BrokerBack) : OrderRef * BrokerBack :=
  let r := fresh (dom (heap b)) in
  (r, store r o b).

Definition buy (d : DataId) (size : Z) (price : Q) (et : Order.ExecType)
    (until : option DateTime) (b : BrokerBack) : OrderRef * BrokerBack :=
  let '(r, b1) := new_order (Order.create Order.Buy d size price et until) b in
  submit r b1.

Definition sell (d : DataId) (size : Z) (price : Q) (et : Order.ExecType)
    (until : option DateTime) (b : BrokerBack) : OrderRef * BrokerBack :=
  let '(r, b1) := new_order (Order.create Order.Sell d size price et until) b in
  submit r b1.

(** ** Execution of a fill *)

(** The cash after the closed leg of [_execute]: add the operation cost of
    the closed quantity, take its commission, take its cash adjustment. *)
Definition closed_leg (ci : CommissionInfo) (closed : Z) (price close0 : Q)
    (c : Q) : Q :=
  if (closed =? 0)%Z then c
  else
    c + CommissionInfo.getoperationcost ci closed price
      - CommissionInfo.getcomm_pricesize ci closed price
      - CommissionInfo.cashadjust ci closed price close0.

(** The cash after the opened leg. *)
Definition opened_leg (ci : CommissionInfo) (opened : Z) (price close0 : Q)
    (c : Q) : Q :=
  if (opened =? 0)%Z then c
  else
    c - CommissionInfo.getoperationcost ci opened price
      - CommissionInfo.getcomm_pricesize ci opened price
      + CommissionInfo.cashadjust ci opened price close0.

(** [_execute(order, dt, price)].  [o] is the current content of the object
    behind [r]. *)
Definition _execute (feeds : DataId -> Data) (r : OrderRef) (o : Order)
    (dt : DateTime) (price : Q) (b : BrokerBack) : BrokerBack :=
  let size := Order.executed_remsize o in
  let '(position, b1) := positions_getitem (Order.data o) b in
  let '(position', (psize, pprice, opened, closed)) :=
    Position.update position size price in
  let b2 := set_positions (<[Order.data o := position']> (positions b1)) b1 in
  let d := feeds (Order.data o) in
  let ci := getcommissioninfo b2 d in
  let closedvalue :=
    if (closed =? 0)%Z then 0
    else CommissionInfo.getoperationcost ci closed price in
  let closedcomm :=
    if (closed =? 0)%Z then 0
    else CommissionInfo.getcomm_pricesize ci closed price in
  let b3 := set_cash (closed_leg ci closed price (close d 0) (cash b2)) b2 in
  let openedvalue :=
    if (opened =? 0)%Z then 0
    else CommissionInfo.getoperationcost ci opened price in
  let openedcomm :=
    if (opened =? 0)%Z then 0
    else CommissionInfo.getcomm_pricesize ci opened price in
  let b4 := set_cash (opened_leg ci opened price (close d 0) (cash b3)) b3 in
  let fill :=
    Order.mkFill dt size price closed closedvalue closedcomm
                 opened openedvalue openedcomm
                 (CommissionInfo.margin ci) psize pprice in
  notify r (store r (Order.execute o fill) b4).

(** ** The fill rules of [next] *)

(** What the [if]/[elif] chain of [next] does with one order: at most one
    call [_execute(order, dt, price)], or an exception. *)
Inductive Decision :=
  | Fill (dt : DateTime) (price : Q)
  | NoFill
  | Raise (e : Exn).

(** The Limit rule, also taken by a StopLimit that has triggered. *)
Definition limit_rule (side : Order.OrdType) (dt0 : DateTime)
    (plimit popen plow phigh : Q) : Decision :=
  match side with
  | Order.Buy =>
      if Qge_b plimit popen then Fill dt0 popen
      else if Qge_b plimit plow then Fill dt0 plimit
      else NoFill
  | Order.Sell =>
      if Qle_b plimit popen then Fill dt0 popen
      else if Qle_b plimit phigh then Fill dt0 plimit
      else NoFill
  end.

Definition stop_rule (side : Order.OrdType) (dt0 : DateTime)
    (pcreated popen plow phigh : Q) : Decision :=
  match side with
  | Order.Buy =>
      if Qge_b popen pcreated then Fill dt0 popen
      else if Qge_b phigh pcreated then Fill dt0 pcreated
      else NoFill
  | Order.Sell =>
      if Qle_b popen pcreated then Fill dt0 popen
      else if Qle_b plow pcreated then Fill dt0 pcreated
      else NoFill
  end.

(** The StopLimit rule of an order that has not triggered yet: the new value
    of [order.triggered] and the decision.  The gap branch of the sell side
    compares the limit with the builtin [open]. *)
Definition stoplimit_rule (v : PyVersion) (side : Order.OrdType)
    (dt0 : DateTime) (pcreated plimit popen plow phigh pclose : Q)
    (triggered0 : bool) : bool * Decision :=
  match side with
  | Order.Buy =>
      if Qge_b popen pcreated then
        (true,
         if Qge_b plimit popen then Fill dt0 popen
         else if Qge_b plimit plow then Fill dt0 plimit
         else NoFill)
      else if Qge_b phigh pcreated then
        (true,
         if Qgt_b popen pclose then
           if Qge_b plimit pcreated then Fill dt0 pcreated
           else if Qge_b plimit pclose then Fill dt0 plimit
           else NoFill
         else
           if Qge_b plimit pcreated then Fill dt0 pcreated
           else NoFill)
      else (triggered0, NoFill)
  | Order.Sell =>
      if Qle_b popen pcreated then
        (true,
         match le_builtin v plimit with
         | None => Raise TypeError
         | Some true => Fill dt0 popen
         | Some false =>
             if Qle_b plimit phigh then Fill dt0 plimit else NoFill
         end)
      else if Qle_b plow pcreated then
        (true,
         if Qle_b popen pclose then
           if Qle_b plimit pcreated then Fill dt0 pcreated
           else if Qle_b plimit pclose then Fill dt0 plimit
           else NoFill
         else
           if Qle_b plimit pcreated then Fill dt0 pcreated
           else NoFill)
      else (triggered0, NoFill)
  end.

(** The Close rule: the bar before has to be another bar. *)
Definition close_rule (dt0 dt1 : DateTime) (pclose1 : Q) : Decision :=
  if negb (time dt0 =? time dt1)%Z then Fill dt1 pclose1
  else if negb (date dt0 =? date dt1)%Z then Fill dt1 pclose1
  else NoFill.

(** The whole chain, for an order that did not expire. *)
Definition fill_rule (v : PyVersion) (d : Data) (o : Order)
  : bool * Decision :=
  let plow := low d 0 in
  let phigh := high d 0 in
  let popen := open d 0 in
  let pclose := close d 0 in
  let pclose1 := close d (-1) in
  let pcreated := Order.created_price o in
  let plimit := Order.created_pricelimit o in
  let keep := Order.triggered o in
  match Order.exectype o with
  | Order.Market => (keep, Fill (datetime d 0) popen)
  | Order.Close =>
      (keep, close_rule (datetime d 0) (datetime d (-1)) pclose1)
  | Order.Limit =>
      (keep, limit_rule (Order.ordtype o) (datetime d 0)
                        plimit popen plow phigh)
  | Order.Stop =>
      (keep, stop_rule (Order.ordtype o) (datetime d 0)
                       pcreated popen plow phigh)
  | Order.StopLimit =>
      if Order.triggered o then
        (keep, limit_rule (Order.ordtype o) (datetime d 0)
                          plimit popen plow phigh)
      else
        stoplimit_rule v (Order.ordtype o) (datetime d 0)
                       pcreated plimit popen plow phigh pclose keep
  end.

(** ** The per-bar step *)

(** The start-of-bar sweep over [self.positions.items()]. *)
Definition sweep_term (feeds : DataId -> Data) (b : BrokerBack)
    (item : DataId * Position) : Q :=
  let d := feeds item.1 in
  CommissionInfo.cashadjust (getcommissioninfo b d)
    (Position.size item.2) (close d (-1)) (close d 0).

Definition sweep (feeds : DataId -> Data) (b : BrokerBack) : BrokerBack :=
  set_cash
    (foldl (fun c item => c + sweep_term feeds b item) (cash b)
           (map_to_list (positions b)))
    b.

(** [if order.alive(): self.pending.append(order)] *)
Definition requeue (r : OrderRef) (b : BrokerBack) : BrokerBack :=
  match heap b !! r with
  | Some o =>
      if Order.alive o then set_pending (pending b ++ [r]) b else b
  | None => b
  end.

(** The body of the queue loop after [popleft], for the order object [o]
    behind [r]. *)
Definition process_order (v : PyVersion) (feeds : DataId -> Data)
    (r : OrderRef) (o : Order) (b : BrokerBack) : BrokerBack * Outcome :=
  let d := feeds (Order.data o) in
  let '(expired, o1) := Order.expire o (datetime d 0) in
  if expired then (notify r (store r o1 b), Normal)
  else
    let '(trig, dec) := fill_rule v d o1 in
    let o2 := Order.set_triggered trig o1 in
    let b2 := store r o2 b in
    match dec with
    | Raise e => (b2, Raised e)
    | Fill dt price => (requeue r (_execute feeds r o2 dt price b2), Normal)
    | NoFill => (requeue r b2, Normal)
    end.

(** [for i in range(len(self.pending))]: [n] iterations, each popping the
    head of the deque. *)
Fixpoint queue_pass (v : PyVersion) (feeds : DataId -> Data) (n : nat)
    (b : BrokerBack) : BrokerBack * Outcome :=
  match n with
  | O => (b, Normal)
  | S n' =>
      match pending b with
      | [] => (b, Raised IndexError)
      | r :: rest =>
          let b1 := set_pending rest b in
          match heap b1 !! r with
          | None => (b1, Raised DanglingRef)
          | Some o =>
              match process_order v feeds r o b1 with
              | (b2, Normal) => queue_pass v feeds n' b2
              | (b2, Raised e) => (b2, Raised e)
              end
          end
      end
  end.

Definition next (v : PyVersion) (feeds : DataId -> Data) (b : BrokerBack)
  : BrokerBack * Outcome :=
  let b1 := sweep feeds b in
  queue_pass v feeds (length (pending b1)) b1.

(** ** One evaluation of one order *)

(** What one pass through the loop body decides for an order object with
    content [o]: the expiry test comes first, then the fill rules.  [t] is
    the value of [triggered] the body leaves in the object. *)
Inductive Verdict :=
  | VExpired
  | VFilled (t : bool) (dt : DateTime) (price : Q)
  | VKept (t : bool)
  | VRaises (t : bool) (e : Exn).

Definition verdict (v : PyVersion) (feeds : DataId -> Data) (o : Order)
  : Verdict :=
  let d := feeds (Order.data o) in
  if (Order.expire o (datetime d 0)).1 then VExpired
  else
    match fill_rule v d o with
    | (t, Fill dt price) => VFilled t dt price
    | (t, NoFill) => VKept t
    | (t, Raise e) => VRaises t e
    end.

Definition raises (v : PyVersion) (feeds : DataId -> Data) (o : Order)
  : bool :=
  match verdict v feeds o with VRaises _ _ => true | _ => false end.

(** The order goes back to the queue: it neither expired nor filled, and it
    is alive. *)
Definition requeued (v : PyVersion) (feeds : DataId -> Data) (o : Order)
  : bool :=
  match verdict v feeds o with VKept _ => Order.alive o | _ => false end.

(** The order is notified: it expired or it filled. *)
Definition notified (v : PyVersion) (feeds : DataId -> Data) (o : Order)
  : bool :=
  match verdict v feeds o with
  | VExpired | VFilled _ _ _ => true
  | _ => false
  end.

(** The content [o2] of the object after one evaluation of [o]. *)
Definition evaluated_once (v : PyVersion) (feeds : DataId -> Data)
    (o o2 : Order) : Prop :=
  match verdict v feeds o with
  | VExpired => o2 = Order.set_status Order.Expired o
  | VFilled t dt price =>
      exists f, o2 = Order.execute (Order.set_triggered t o) f /\
                Order.fill_dt f = dt /\ Order.fill_price f = price /\
                Order.fill_size f = Order.executed_remsize o
  | VKept t => o2 = Order.set_triggered t o
  | VRaises _ _ => False
  end.

(** The same tests on a reference, through the store. *)
Definition on_object (h : gmap OrderRef Order) (f : Order -> bool)
    (r : OrderRef) : bool :=
  match h !! r with Some o => f o | None => false end.

(** The loop of [next] as an iteration over a fixed list of references, the
    snapshot of the queue. *)
Fixpoint pass_over (v : PyVersion) (feeds : DataId -> Data)
    (rs : list OrderRef) (b : BrokerBack) : BrokerBack * Outcome :=
  match rs with
  | [] => (b, Normal)
  | r :: rs' =>
      match heap b !! r with
      | None => (b, Raised DanglingRef)
      | Some o =>
          match process_order v feeds r o b with
          | (b2, Normal) => pass_over v feeds rs' b2
          | (b2, Raised e) => (b2, Raised e)
          end
      end
  end.

(** The queue holds each order once and every reference has its object. *)
Definition queue_ok (b : BrokerBack) : Prop :=
  NoDup (pending b) /\ forall r, r ∈ pending b -> is_Some (heap b !! r).

(** ** Vocabulary of the statements *)

(** The order reaches the fill rules: [order.expire()] was false. *)
Definition not_expired (o : Order) (d : Data) : Prop :=
  (Order.expire o (datetime d 0)).1 = false.

(** One loop body ends in the call [_execute(order, dt, price)], the object
    behind [r] holding [o'] at the call. *)
Definition executes_at (v : PyVersion) (feeds : DataId -> Data)
    (r : OrderRef) (o : Order) (b : BrokerBack) (o' : Order)
    (dt : DateTime) (price : Q) : Prop :=
  process_order v feeds r o b
  = (_execute feeds r o' dt price (store r o' b), Normal).

(** One loop body makes no call of [_execute] and appends the order, now
    holding [o'], to the queue. *)
Definition stays_pending (v : PyVersion) (feeds : DataId -> Data)
    (r : OrderRef) (o : Order) (b : BrokerBack) (o' : Order) : Prop :=
  process_order v feeds r o b
  = (set_pending (pending b ++ [r]) (store r o' b), Normal).

(** [0.0 + x1 + ... + xn] *)
Definition Qsum (l : list Q) : Q := foldr Qplus 0 l.

(** The value of one entry of the position map at the current close. *)
Definition position_value (feeds : DataId -> Data) (b : BrokerBack)
    (item : DataId * Position) : Q :=
  CommissionInfo.getvalue (getcommissioninfo b (feeds item.1)) item.2
                          (close (feeds item.1) 0).

(** The entry holds an open position. *)
Definition is_open (item : DataId * Position) : bool :=
  negb (Position.size item.2 =? 0)%Z.

(** The quantities [opened] and [closed] that [_execute] gets from
    [position.update] for the fill of [o] at [price]. *)
Definition fill_split (o : Order) (price : Q) (b : BrokerBack) : Z * Z :=
  let position := default Position.empty (positions b !! Order.data o) in
  let '(_, (_, _, opened, closed)) :=
    Position.update position (Order.executed_remsize o) price in
  (opened, closed).

(** The exposure the broker holds on an instrument. *)
Definition held_size (b : BrokerBack) (d : DataId) : Z :=
  Position.size (default Position.empty (positions b !! d)).


(** ** Sample bars and orders *)

Definition noon (day : Z) : DateTime := mkDateTime day 43200000000.

Definition flat (x : Q) : Z -> Q := fun _ => x.

(** A daily bar of day [day] with the given prices; the bar before closed
    at [c1] the day before. *)
Definition daily_bar (day : Z) (o h l c c1 : Q) : Data :=
  mkData None (flat o) (flat h) (flat l)
         (fun k => if (k =? 0)%Z then c else c1)
         (fun k => if (k =? 0)%Z then noon day else noon (day - 1)).

(** An accepted order of size 10 on instrument 1. *)
Definition sample_order (side : Order.OrdType) (et : Order.ExecType)
    (price pricelimit : Q) : Order :=
  Order.mk 1%positive side et
           (match side with Order.Buy => 10 | Order.Sell => -10 end)%Z
           price pricelimit None Order.Accepted false
           (match side with Order.Buy => 10 | Order.Sell => -10 end)%Z
           None.

(** A cash scheme and a margined one. *)
Definition stock_scheme : CommissionInfo := CommissionInfo.mk 0 None 1.
Definition future_scheme : CommissionInfo :=
  CommissionInfo.mk 2 (Some 1000) 10.

(** A broker with one pending order, stored behind reference 1. *)
Definition one_order_broker (ci : CommissionInfo) (o : Order) : BrokerBack :=
  mkBroker 10000 10000 [1%positive] [1%positive] ∅ ci ∅ [] {[1%positive := o]}.

(** The same bar for every feed. *)
Definition feeds_of (d : Data) : DataId -> Data := fun _ => d.

(** Limit buy at 95 on a bar opening at 100 with a low of 94. *)
Definition limit_touch_bar : Data := daily_bar 2 100 101 94 99 98.
Definition limit_touch_order : Order :=
  sample_order Order.Buy Order.Limit 95 95.

(** Stop buy with trigger 110 on a bar opening at 108 with a high of 112. *)
Definition stop_touch_bar : Data := daily_bar 2 108 112 107 111 109.
Definition stop_touch_order : Order :=
  sample_order Order.Buy Order.Stop 110 110.

(** A Close order on a daily feed: same time of day, next date. *)
Definition next_day_bar : Data := daily_bar 2 100 101 99 100 98.
Definition close_order : Order := sample_order Order.Sell Order.Close 0 0.

(** Sell StopLimit, trigger 100, limit 105, on a bar that opens below the
    trigger: open 95, high 110, low 90, close 98. *)
Definition gap_down_bar : Data := daily_bar 2 95 110 90 98 101.
Definition gap_down_order : Order :=
  sample_order Order.Sell Order.StopLimit 100 105.

(** Sell StopLimit, trigger 98, limit 99, on a bar that opens and closes at
    100 and dips to 97. *)
Definition doji_bar : Data := daily_bar 2 100 101 97 100 99.
Definition doji_order : Order :=
  sample_order Order.Sell Order.StopLimit 98 99.

(** The intrabar sub-rule of a sell StopLimit as the mirror of the buy side
    in every inequality: one branch when [open >= close], two when
    [open < close]. *)
Definition mirrored_sell_intrabar (dt0 : DateTime)
    (pcreated plimit popen pclose : Q) : Decision :=
  if Qge_b popen pclose then
    if Qle_b plimit pcreated then Fill dt0 pcreated else NoFill
  else
    if Qle_b plimit pcreated then Fill dt0 pcreated
    else if Qle_b plimit pclose then Fill dt0 plimit
    else NoFill.

(** The statement that [next] follows the mirrored sub-rule on every sell
    StopLimit penetrated during the bar. *)
Definition sell_intrabar_is_mirror : Prop :=
  forall (v : PyVersion) (d : Data) (o : Order),
    Order.ordtype o = Order.Sell ->
    Order.exectype o = Order.StopLimit ->
    Order.triggered o = false ->
    Order.created_price o < open d 0 ->
    low d 0 <= Order.created_price o ->
    fill_rule v d o
    = (true,
       mirrored_sell_intrabar (datetime d 0) (Order.created_price o)
         (Order.created_pricelimit o) (open d 0) (close d 0)).

(** A market order whose validity ended the day before the sample bars. *)
Definition stale_order : Order :=
  Order.mk 1%positive Order.Buy Order.Market 10 0 0 (Some (noon 1))
           Order.Accepted false 10 None.

(** Three pending orders: a limit buy at 95, a stop buy at 110 and the stale
    order. *)
Definition three_order_broker : BrokerBack :=
  mkBroker 10000 10000 [1; 2; 3]%positive [1; 2; 3]%positive ∅
           stock_scheme ∅ []
           (<[1%positive := limit_touch_order]>
              (<[2%positive := stop_touch_order]>
                 {[3%positive := stale_order]})).

(** A broker holding 3 contracts of a futures instrument, no order
    pending. *)
Definition holding_broker : BrokerBack :=
  mkBroker 10000 10000 [] [] {[1%positive := Position.mk 3 100]}
           future_scheme ∅ [] ∅.

(** A round trip of one futures contract (margin 1000, multiplier 1, no
    commission): bought at the open of a bar that opens and closes at 100,
    sold at the open, 110, of the next bar, which closes at 120. *)
Definition round_trip_scheme : CommissionInfo :=
  CommissionInfo.mk 0 (Some 1000) 1.

Definition round_trip : BrokerBack * Outcome :=
  let b0 := init 10000 round_trip_scheme in
  let b1 := (buy 1%positive 1 0 Order.Market None b0).2 in
  let b2 := (next Python3 (feeds_of (daily_bar 2 100 100 100 100 100)) b1).1 in
  let b3 := (sell 1%positive 1 0 Order.Market None b2).2 in
  next Python3 (feeds_of (daily_bar 3 110 120 110 120 100)) b3.

(** ** Further vocabulary *)

(** What [next] never touches: the log of orders, the starting cash and the
    commission schemes; notifications are only appended and no object leaves
    the store. *)
Definition extends (b b' : BrokerBack) : Prop :=
  orders b' = orders b /\
  startingcash b' = startingcash b /\
  comminfo_None b' = comminfo_None b /\
  comminfo b' = comminfo b /\
  notifs b `prefix_of` notifs b' /\
  (forall r, is_Some (heap b !! r) -> is_Some (heap b' !! r)).

(** The evaluation of the order ends without a fill and without an
    exception. *)
Definition unfilled (v : PyVersion) (feeds : DataId -> Data) (o : Order)
  : bool :=
  match verdict v feeds o with
  | VExpired | VKept _ => true
  | _ => false
  end.

(** A StopLimit buy with trigger 110 and limit 108, not triggered. *)
Definition stoplimit_buy_order : Order :=
  sample_order Order.Buy Order.StopLimit 110 108.

(** A bar that opens through the trigger, at 115, and stays above the
    limit: low 112. *)
Definition gap_up_bar : Data := daily_bar 2 115 116 112 114 109.

(** The bar after: it opens at 107, below the limit, and never comes near
    the trigger. *)
Definition quiet_bar : Data := daily_bar 3 107 108 106 107 114.

(** The value [getvalue] adds for one instrument of an explicit list: the
    position of the instrument, the default one if it has none. *)
Definition explicit_value (feeds : DataId -> Data) (b : BrokerBack)
    (d : DataId) : Q :=
  CommissionInfo.getvalue (getcommissioninfo b (feeds d))
    (default Position.empty (positions b !! d)) (close (feeds d) 0).

(** A data feed registered under the name ["ES"]. *)
Definition named_bar : Data :=
  mkData (Some "ES"%string) (flat 100) (flat 101) (flat 99) (flat 100)
         (fun _ => noon 2).

(** ** The strategy ([backtrader/strategy.py]) *)

Module Strategy.

(** The callback [_oncepost] ends up calling. *)
Inductive Phase := PreNext | NextStart | Next.

(** [max(l)] on a list of integers; [None] is the [ValueError] of the
    empty list. *)
Definition py_max (l : list Z) : option Z :=
  match l with
  | [] => None
  | x :: l' => Some (foldl Z.max x l')
  end.

(** [max(l or [default])] *)
Definition max_or (l : list Z) (default : Z) : Z :=
  match l with
  | [] => default
  | x :: l' => foldl Z.max x l'
  end.

(** [dopostinit]: the list [_minperiods], one entry per data, from the
    [defaultdict(list)] of the periods found for each data and the period
    the strategy has so far. *)
Definition _minperiods (dminperiods : gmap DataId (list Z))
    (datas : list DataId) (minperiod : Z) : list Z :=
  map (fun data => max_or (default [] (dminperiods !! data)) minperiod)
      datas.

(** [dopostinit]: the new [_minperiod] of the strategy, from the periods
    of its indicators. *)
Definition _minperiod (minperiods : list Z) (minperiod : Z) : Z :=
  max_or minperiods minperiod.

(** [map(operator.sub, self._minperiods, map(len, self.datas))].  On lists
    of different lengths Python 2 pads the shorter with [None], on which
    the subtraction raises [TypeError] ([None] here); Python 3 stops at the
    end of the shorter. *)
Definition dlens (v : PyVersion) (minperiods lens : list Z)
  : option (list Z) :=
  if (length minperiods =? length lens)%nat
  then Some (zip_with Z.sub minperiods lens)
  else match v with
       | Python2 => None
       | Python3 => Some (zip_with Z.sub minperiods lens)
       end.

(** [minperstatus = max(dlens)] *)
Definition minperstatus (v : PyVersion) (minperiods lens : list Z)
  : option Z :=
  match dlens v minperiods lens with
  | Some l => py_max l
  | None => None
  end.

(** The dispatch of [_oncepost]: [next] below zero, [nextstart] at zero,
    [prenext] above. *)
Definition _oncepost_phase (v : PyVersion) (minperiods lens : list Z)
  : option Phase :=
  match minperstatus v minperiods lens with
  | Some status =>
      Some (if (status <? 0)%Z then Next
            else if (status =? 0)%Z then NextStart
            else PreNext)
  | None => None
  end.

(** The two lists of orders the strategy keeps. *)
Record t := mk {
  _orders : list OrderRef;
  _orderspending : list OrderRef
}.

Definition _addnotification (order : OrderRef) (s : t) : t :=
  mk (_orders s) (_orderspending s ++ [order]).

(** [clear]: [_orders.extend(_orderspending)], then a new empty list. *)
Definition clear (s : t) : t :=
  mk (_orders s ++ _orderspending s) [].

End Strategy.

(** ** The relative strength index ([backtrader/indicators/rsi.py]) *)

Module RSI.

(** [Max(a, b)] at one bar: Python's [max] of two floats. *)
Definition Max (a b : Q) : Q := if Qgt_b b a then b else a.

(** The indicators at one bar, from the value of the data at the bar,
    [data], and at the bar before, [data1]. *)
Definition UpDay (data data1 : Q) : Q := Max (data - data1) 0.
Definition DownDay (data data1 : Q) : Q := Max (data1 - data) 0.
Definition UpDayBool (data data1 : Q) : bool := Qgt_b data data1.
Definition DownDayBool (data data1 : Q) : bool := Qgt_b data1 data.

End RSI.

(** The broker of [round_trip] when the second bar begins: one contract
    long, carried from the close at 100, and the Market sell pending. *)
Definition carried_long : BrokerBack :=
  let b0 := init 10000 round_trip_scheme in
  let b1 := (buy 1%positive 1 0 Order.Market None b0).2 in
  let b2 := (next Python3 (feeds_of (daily_bar 2 100 100 100 100 100)) b1).1 in
  (sell 1%positive 1 0 Order.Market None b2).2.

(** The second bar of the round trip: open 110, close 120, after a close at
    100. *)
Definition closing_bar : Data := daily_bar 3 110 120 110 120 100.

(** The buy twin of [doji_order]: trigger 102, limit 101, on a bar that
    opens and closes at 100 and reaches 103. *)
Definition doji_high_bar : Data := daily_bar 2 100 103 99 100 99.
Definition doji_buy_order : Order :=
  sample_order Order.Buy Order.StopLimit 102 101.

(** A queue of two: the sell StopLimit of [gap_down_order], then a Market
    buy. *)
Definition market_order : Order := sample_order Order.Buy Order.Market 0 0.

Definition gap_then_market_broker : BrokerBack :=
  mkBroker 10000 10000 [1; 2]%positive [1; 2]%positive ∅ stock_scheme ∅ []
           (<[1%positive := gap_down_order]> {[2%positive := market_order]}).

(** ** Elementary facts *)

Lemma Qle_b_true a b : Qle_b a b = true <-> a <= b.
Proof. apply Qle_bool_iff. Qed.

Lemma Qle_b_false a b : Qle_b a b = false <-> b < a.
Proof.
  unfold Qle_b. split; intros H.
  - apply Qnot_le_lt. intros Hl. apply Qle_bool_iff in Hl. congruence.
  - destruct (Qle_bool a b) eqn:E; [|reflexivity].
    apply Qle_bool_iff in E. exfalso. exact (Qlt_not_le _ _ H E).
Qed.

Lemma Qge_b_true a b : Qge_b a b = true <-> b <= a.
Proof. apply Qle_b_true. Qed.

Lemma Qge_b_false a b : Qge_b a b = false <-> a < b.
Proof. apply Qle_b_false. Qed.

Lemma Qgt_b_true a b : Qgt_b a b = true <-> b < a.
Proof.
  unfold Qgt_b. rewrite negb_true_iff. apply Qle_b_false.
Qed.

Lemma Qgt_b_false a b : Qgt_b a b = false <-> a <= b.
Proof.
  unfold Qgt_b. rewrite negb_false_iff. apply Qle_b_true.
Qed.

Lemma set_triggered_same (o : Order) :
  Order.set_triggered (Order.triggered o) o = o.
Proof. now destruct o. Qed.

Lemma expire_not_expired (o : Order) (d : Data) :
  not_expired o d -> Order.expire o (datetime d 0) = (false, o).
Proof.
  unfold not_expired, Order.expire.
  destruct (Order.valid o) as [u|]; [|reflexivity].
  destruct (dt_gt (datetime d 0) u); [discriminate|reflexivity].
Qed.

Lemma heap_execute feeds r o dt price b :
  exists f, heap (_execute feeds r o dt price b)
            = <[r := Order.execute o f]> (heap b).
Proof.
  unfold _execute, positions_getitem.
  destruct (positions b !! Order.data o);
    destruct (Position.update _ _ _) as [p' [[[ps pp] op] cl]];
    eexists; reflexivity.
Qed.

Lemma pending_execute feeds r o dt price b :
  pending (_execute feeds r o dt price b) = pending b.
Proof.
  unfold _execute, positions_getitem.
  destruct (positions b !! Order.data o);
    destruct (Position.update _ _ _) as [p' [[[ps pp] op] cl]];
    reflexivity.
Qed.

Lemma notifs_execute feeds r o dt price b :
  notifs (_execute feeds r o dt price b) = notifs b ++ [r].
Proof.
  unfold _execute, positions_getitem.
  destruct (positions b !! Order.data o);
    destruct (Position.update _ _ _) as [p' [[[ps pp] op] cl]];
    reflexivity.
Qed.

(** An executed order is completed, hence not appended again. *)
Lemma requeue_execute feeds r o dt price b :
  requeue r (_execute feeds r o dt price b) = _execute feeds r o dt price b.
Proof.
  unfold requeue.
  destruct (heap_execute feeds r o dt price b) as [f ->].
  now rewrite lookup_insert_eq.
Qed.

Lemma requeue_alive r o b :
  Order.alive o = true ->
  requeue r (store r o b) = set_pending (pending b ++ [r]) (store r o b).
Proof.
  intros Ha. unfold requeue, store; simpl.
  now rewrite lookup_insert_eq, Ha.
Qed.

Lemma alive_set_triggered t o :
  Order.alive (Order.set_triggered t o) = Order.alive o.
Proof. reflexivity. Qed.

(** The three ways out of the loop body, read off the decision. *)
Lemma process_fill v feeds r o b t dt price :
  not_expired o (feeds (Order.data o)) ->
  fill_rule v (feeds (Order.data o)) o = (t, Fill dt price) ->
  executes_at v feeds r o b (Order.set_triggered t o) dt price.
Proof.
  intros He Hf. unfold executes_at, process_order.
  rewrite (expire_not_expired _ _ He), Hf.
  now rewrite requeue_execute.
Qed.

Lemma process_nofill v feeds r o b t :
  not_expired o (feeds (Order.data o)) ->
  fill_rule v (feeds (Order.data o)) o = (t, NoFill) ->
  Order.alive o = true ->
  stays_pending v feeds r o b (Order.set_triggered t o).
Proof.
  intros He Hf Ha. unfold stays_pending, process_order.
  rewrite (expire_not_expired _ _ He), Hf.
  now rewrite requeue_alive.
Qed.

Lemma process_raise v feeds r o b t e :
  not_expired o (feeds (Order.data o)) ->
  fill_rule v (feeds (Order.data o)) o = (t, Raise e) ->
  process_order v feeds r o b
  = (store r (Order.set_triggered t o) b, Raised e).
Proof.
  intros He Hf. unfold process_order.
  now rewrite (expire_not_expired _ _ He), Hf.
Qed.

(** A fill and a re-queue are told apart by the notification. *)
Lemma executes_not_pending v feeds r o b o1 o2 dt price :
  executes_at v feeds r o b o1 dt price ->
  ~ stays_pending v feeds r o b o2.
Proof.
  unfold executes_at, stays_pending. intros -> H.
  apply (f_equal (fun x => length (notifs x.1))) in H. simpl in H.
  rewrite notifs_execute, length_app in H. simpl in H. lia.
Qed.

(** ** The fill rules, order type by order type *)

Lemma fill_rule_limit v d o :
  Order.exectype o = Order.Limit \/
  (Order.exectype o = Order.StopLimit /\ Order.triggered o = true) ->
  fill_rule v d o
  = (Order.triggered o,
     limit_rule (Order.ordtype o) (datetime d 0)
                (Order.created_pricelimit o) (open d 0) (low d 0) (high d 0)).
Proof.
  unfold fill_rule. intros [-> | [-> ->]]; reflexivity.
Qed.

Lemma fill_rule_stop v d o :
  Order.exectype o = Order.Stop ->
  fill_rule v d o
  = (Order.triggered o,
     stop_rule (Order.ordtype o) (datetime d 0)
               (Order.created_price o) (open d 0) (low d 0) (high d 0)).
Proof. unfold fill_rule. now intros ->. Qed.

Lemma fill_rule_close v d o :
  Order.exectype o = Order.Close ->
  fill_rule v d o
  = (Order.triggered o,
     close_rule (datetime d 0) (datetime d (-1)) (close d (-1))).
Proof. unfold fill_rule. now intros ->. Qed.

Lemma fill_rule_stoplimit v d o :
  Order.exectype o = Order.StopLimit ->
  Order.triggered o = false ->
  fill_rule v d o
  = stoplimit_rule v (Order.ordtype o) (datetime d 0)
      (Order.created_price o) (Order.created_pricelimit o)
      (open d 0) (low d 0) (high d 0) (close d 0) false.
Proof. unfold fill_rule. now intros -> ->. Qed.

(** The same for a rule that leaves [triggered] alone. *)
Lemma process_fill_same v feeds r o b dt price :
  not_expired o (feeds (Order.data o)) ->
  fill_rule v (feeds (Order.data o)) o = (Order.triggered o, Fill dt price) ->
  executes_at v feeds r o b o dt price.
Proof.
  intros He Hf. pose proof (process_fill v feeds r o b _ _ _ He Hf) as H.
  now rewrite set_triggered_same in H.
Qed.

Lemma process_nofill_same v feeds r o b :
  not_expired o (feeds (Order.data o)) ->
  fill_rule v (feeds (Order.data o)) o = (Order.triggered o, NoFill) ->
  Order.alive o = true ->
  stays_pending v feeds r o b o.
Proof.
  intros He Hf Ha. pose proof (process_nofill v feeds r o b _ He Hf Ha) as H.
  now rewrite set_triggered_same in H.
Qed.

Ltac settle_untouched He Hrule :=
  first [ apply process_fill_same; [exact He | exact Hrule]
        | apply process_nofill_same; [exact He | exact Hrule | assumption] ].

(** C5. A pending Limit order, or a StopLimit that has triggered, fills at
    the open when the limit is at or beyond the open in the favourable
    direction (buy: limit >= open, sell: limit <= open); otherwise at the
    limit when the bar touches it (buy: limit >= low, sell: limit <= high);
    otherwise it stays pending. *)
Theorem limit_fill_rule v feeds r o b :
  let d := feeds (Order.data o) in
  let plimit := Order.created_pricelimit o in
  let dt0 := datetime d 0 in
  not_expired o d ->
  Order.exectype o = Order.Limit \/
  (Order.exectype o = Order.StopLimit /\ Order.triggered o = true) ->
  (Order.ordtype o = Order.Buy ->
     (open d 0 <= plimit -> executes_at v feeds r o b o dt0 (open d 0)) /\
     (plimit < open d 0 -> low d 0 <= plimit ->
        executes_at v feeds r o b o dt0 plimit) /\
     (plimit < open d 0 -> plimit < low d 0 -> Order.alive o = true ->
        stays_pending v feeds r o b o)) /\
  (Order.ordtype o = Order.Sell ->
     (plimit <= open d 0 -> executes_at v feeds r o b o dt0 (open d 0)) /\
     (open d 0 < plimit -> plimit <= high d 0 ->
        executes_at v feeds r o b o dt0 plimit) /\
     (open d 0 < plimit -> high d 0 < plimit -> Order.alive o = true ->
        stays_pending v feeds r o b o)).
Proof.
  intros d plimit dt0 He Ht.
  pose proof (fill_rule_limit v d o Ht) as Hrule.
  split; intros Hside; rewrite Hside in Hrule; unfold limit_rule in Hrule;
    fold plimit in Hrule; repeat split.
  - intros H1. apply Qge_b_true in H1. rewrite H1 in Hrule.
    settle_untouched He Hrule.
  - intros H1 H2. apply Qge_b_false in H1. apply Qge_b_true in H2.
    rewrite H1, H2 in Hrule. settle_untouched He Hrule.
  - intros H1 H2 Ha. apply Qge_b_false in H1. apply Qge_b_false in H2.
    rewrite H1, H2 in Hrule. settle_untouched He Hrule.
  - intros H1. apply Qle_b_true in H1. rewrite H1 in Hrule.
    settle_untouched He Hrule.
  - intros H1 H2. apply Qle_b_false in H1. apply Qle_b_true in H2.
    rewrite H1, H2 in Hrule. settle_untouched He Hrule.
  - intros H1 H2 Ha. apply Qle_b_false in H1. apply Qle_b_false in H2.
    rewrite H1, H2 in Hrule. settle_untouched He Hrule.
Qed.

(** The witnesses run the rules on the sample bars. *)
Lemma limit_fill_rule_witness :
  not_expired limit_touch_order limit_touch_bar /\
  (Order.exectype limit_touch_order = Order.Limit \/
   (Order.exectype limit_touch_order = Order.StopLimit /\
    Order.triggered limit_touch_order = true)) /\
  executes_at Python3 (feeds_of limit_touch_bar) 1%positive limit_touch_order
    (one_order_broker stock_scheme limit_touch_order) limit_touch_order
    (noon 2) 95.
Proof.
  split; [reflexivity|]. split; [left; reflexivity|].
  refine (proj1 (proj2 (proj1
    (limit_fill_rule Python3 (feeds_of limit_touch_bar) 1%positive
       limit_touch_order (one_order_broker stock_scheme limit_touch_order)
       eq_refl (or_introl eq_refl)) eq_refl)) _ _).
  - reflexivity.
  - discriminate.
Defined.

(** C6. A pending Stop order fills at the open when the bar opens through
    the trigger (buy: open >= trigger, sell: open <= trigger); otherwise at
    the trigger when the bar reaches it (buy: high >= trigger, sell:
    low <= trigger); otherwise it stays pending. *)
Theorem stop_fill_rule v feeds r o b :
  let d := feeds (Order.data o) in
  let trigger := Order.created_price o in
  let dt0 := datetime d 0 in
  not_expired o d ->
  Order.exectype o = Order.Stop ->
  (Order.ordtype o = Order.Buy ->
     (trigger <= open d 0 -> executes_at v feeds r o b o dt0 (open d 0)) /\
     (open d 0 < trigger -> trigger <= high d 0 ->
        executes_at v feeds r o b o dt0 trigger) /\
     (open d 0 < trigger -> high d 0 < trigger -> Order.alive o = true ->
        stays_pending v feeds r o b o)) /\
  (Order.ordtype o = Order.Sell ->
     (open d 0 <= trigger -> executes_at v feeds r o b o dt0 (open d 0)) /\
     (trigger < open d 0 -> low d 0 <= trigger ->
        executes_at v feeds r o b o dt0 trigger) /\
     (trigger < open d 0 -> trigger < low d 0 -> Order.alive o = true ->
        stays_pending v feeds r o b o)).
Proof.
  intros d trigger dt0 He Ht.
  pose proof (fill_rule_stop v d o Ht) as Hrule.
  split; intros Hside; rewrite Hside in Hrule; unfold stop_rule in Hrule;
    fold trigger in Hrule; repeat split.
  - intros H1. apply Qge_b_true in H1. rewrite H1 in Hrule.
    settle_untouched He Hrule.
  - intros H1 H2. apply Qge_b_false in H1. apply Qge_b_true in H2.
    rewrite H1, H2 in Hrule. settle_untouched He Hrule.
  - intros H1 H2 Ha. apply Qge_b_false in H1. apply Qge_b_false in H2.
    rewrite H1, H2 in Hrule. settle_untouched He Hrule.
  - intros H1. apply Qle_b_true in H1. rewrite H1 in Hrule.
    settle_untouched He Hrule.
  - intros H1 H2. apply Qle_b_false in H1. apply Qle_b_true in H2.
    rewrite H1, H2 in Hrule. settle_untouched He Hrule.
  - intros H1 H2 Ha. apply Qle_b_false in H1. apply Qle_b_false in H2.
    rewrite H1, H2 in Hrule. settle_untouched He Hrule.
Qed.

Lemma stop_fill_rule_witness :
  not_expired stop_touch_order stop_touch_bar /\
  Order.exectype stop_touch_order = Order.Stop /\
  executes_at Python3 (feeds_of stop_touch_bar) 1%positive stop_touch_order
    (one_order_broker stock_scheme stop_touch_order) stop_touch_order
    (noon 2) 110.
Proof.
  split; [reflexivity|]. split; [reflexivity|].
  refine (proj1 (proj2 (proj1
    (stop_fill_rule Python3 (feeds_of stop_touch_bar) 1%positive
       stop_touch_order (one_order_broker stock_scheme stop_touch_order)
       eq_refl eq_refl) eq_refl)) _ _).
  - reflexivity.
  - discriminate.
Defined.

Lemma notifs_requeue r b : notifs (requeue r b) = notifs b.
Proof.
  unfold requeue. destruct (heap b !! r) as [o|]; [|reflexivity].
  now destruct (Order.alive o).
Qed.

(** C4. A pending Close order executes at the close of the previous bar,
    stamped with that bar's time, exactly when the two bars differ in time
    of day or, the times being equal, in date; when neither differs it
    stays pending. *)
Theorem close_fill_rule v feeds r o b :
  let d := feeds (Order.data o) in
  let dt0 := datetime d 0 in
  let dt1 := datetime d (-1) in
  not_expired o d ->
  Order.exectype o = Order.Close ->
  (executes_at v feeds r o b o dt1 (close d (-1)) <->
     time dt0 <> time dt1 \/ (time dt0 = time dt1 /\ date dt0 <> date dt1)) /\
  (time dt0 = time dt1 -> date dt0 = date dt1 -> Order.alive o = true ->
     stays_pending v feeds r o b o).
Proof.
  intros d dt0 dt1 He Ht.
  pose proof (fill_rule_close v d o Ht) as Hrule.
  unfold close_rule in Hrule. fold dt0 dt1 in Hrule.
  split; [split|].
  - intros Hex.
    destruct (Z.eqb_spec (time dt0) (time dt1)) as [Et|Nt]; [|now left].
    destruct (Z.eqb_spec (date dt0) (date dt1)) as [Ed|Nd]; [|now right].
    exfalso. simpl in Hrule.
    unfold executes_at, process_order in Hex. fold d in Hex.
    rewrite (expire_not_expired _ _ He), Hrule in Hex.
    apply (f_equal (fun x => length (notifs x.1))) in Hex. simpl in Hex.
    rewrite notifs_requeue, notifs_execute, length_app in Hex.
    simpl in Hex. lia.
  - intros [Nt | [Et Nd]].
    + apply Z.eqb_neq in Nt. rewrite Nt in Hrule. simpl in Hrule.
      settle_untouched He Hrule.
    + apply Z.eqb_neq in Nd. apply Z.eqb_eq in Et.
      rewrite Et, Nd in Hrule. simpl in Hrule.
      settle_untouched He Hrule.
  - intros Et Ed Ha. apply Z.eqb_eq in Et. apply Z.eqb_eq in Ed.
    rewrite Et, Ed in Hrule. simpl in Hrule.
    settle_untouched He Hrule.
Qed.

Lemma close_fill_rule_witness :
  not_expired close_order next_day_bar /\
  Order.exectype close_order = Order.Close /\
  executes_at Python3 (feeds_of next_day_bar) 1%positive close_order
    (one_order_broker stock_scheme close_order) close_order (noon 1) 98.
Proof.
  split; [reflexivity|]. split; [reflexivity|].
  apply (proj1 (close_fill_rule Python3 (feeds_of next_day_bar) 1%positive
           close_order (one_order_broker stock_scheme close_order)
           eq_refl eq_refl)).
  right. split; [reflexivity | discriminate].
Defined.

(** ** StopLimit orders on the sell side *)

(** What the gap branch of the sell side does for every limit price: under
    Python 2 the test against the builtin is true and the order fills at the
    open; under Python 3 the test raises. *)
Lemma sell_stoplimit_gap_code d o :
  Order.ordtype o = Order.Sell ->
  Order.exectype o = Order.StopLimit ->
  Order.triggered o = false ->
  open d 0 <= Order.created_price o ->
  fill_rule Python2 d o = (true, Fill (datetime d 0) (open d 0)) /\
  fill_rule Python3 d o = (true, Raise TypeError).
Proof.
  intros Hs Ht Hn Hgap. apply Qle_b_true in Hgap.
  rewrite !fill_rule_stoplimit by assumption.
  unfold stoplimit_rule. rewrite Hs, Hgap. now split.
Qed.

(** C2. The sell StopLimit with trigger 100 and limit 105 meets a bar that
    opens at 95 and reaches 110: the limit is above the open and within the
    high, so the mirror of the buy gap branch fills it at 105.  The code
    fills it at the open, 95, under Python 2, and raises [TypeError] under
    Python 3, having marked it triggered and dropped it from the queue. *)
Theorem sell_stoplimit_gap_defect :
  open gap_down_bar 0 <= Order.created_price gap_down_order /\
  open gap_down_bar 0 < Order.created_pricelimit gap_down_order /\
  Order.created_pricelimit gap_down_order <= high gap_down_bar 0 /\
  executes_at Python2 (feeds_of gap_down_bar) 1%positive gap_down_order
    (one_order_broker stock_scheme gap_down_order)
    (Order.set_triggered true gap_down_order) (noon 2) 95 /\
  ~ executes_at Python2 (feeds_of gap_down_bar) 1%positive gap_down_order
      (one_order_broker stock_scheme gap_down_order)
      (Order.set_triggered true gap_down_order) (noon 2) 105 /\
  process_order Python3 (feeds_of gap_down_bar) 1%positive gap_down_order
    (set_pending [] (one_order_broker stock_scheme gap_down_order))
  = (set_pending []
       (store 1%positive (Order.set_triggered true gap_down_order)
          (one_order_broker stock_scheme gap_down_order)),
     Raised TypeError).
Proof.
  assert (Hgap : open gap_down_bar 0 <= Order.created_price gap_down_order)
    by discriminate.
  destruct (sell_stoplimit_gap_code gap_down_bar gap_down_order
              eq_refl eq_refl eq_refl Hgap) as [H2 H3].
  assert (Hex : executes_at Python2 (feeds_of gap_down_bar) 1%positive
                  gap_down_order
                  (one_order_broker stock_scheme gap_down_order)
                  (Order.set_triggered true gap_down_order) (noon 2) 95).
  { apply (process_fill Python2 (feeds_of gap_down_bar) 1%positive
             gap_down_order _ true (noon 2) 95); [reflexivity | exact H2]. }
  split; [exact Hgap|]. split; [reflexivity|]. split; [discriminate|].
  split; [exact Hex|]. split.
  - unfold executes_at in *. rewrite Hex. intros H.
    apply (f_equal (fun x => cash x.1)) in H. vm_compute in H.
    discriminate H.
  - rewrite (process_raise Python3 (feeds_of gap_down_bar) 1%positive
               gap_down_order _ true TypeError); [reflexivity .. | exact H3].
Qed.

(** The intrabar sub-rule that [next] applies to a sell StopLimit. *)
Lemma sell_stoplimit_intrabar_code v d o :
  Order.ordtype o = Order.Sell ->
  Order.exectype o = Order.StopLimit ->
  Order.triggered o = false ->
  Order.created_price o < open d 0 ->
  low d 0 <= Order.created_price o ->
  fill_rule v d o
  = (true,
     if Qle_b (open d 0) (close d 0) then
       if Qle_b (Order.created_pricelimit o) (Order.created_price o)
       then Fill (datetime d 0) (Order.created_price o)
       else if Qle_b (Order.created_pricelimit o) (close d 0)
            then Fill (datetime d 0) (Order.created_pricelimit o)
            else NoFill
     else
       if Qle_b (Order.created_pricelimit o) (Order.created_price o)
       then Fill (datetime d 0) (Order.created_price o)
       else NoFill).
Proof.
  intros Hs Ht Hn Hgap Hlow.
  apply Qle_b_false in Hgap. apply Qle_b_true in Hlow.
  rewrite fill_rule_stoplimit by assumption.
  unfold stoplimit_rule. now rewrite Hs, Hgap, Hlow.
Qed.

Lemma buy_stoplimit_intrabar_code v d o :
  Order.ordtype o = Order.Buy ->
  Order.exectype o = Order.StopLimit ->
  Order.triggered o = false ->
  open d 0 < Order.created_price o ->
  Order.created_price o <= high d 0 ->
  fill_rule v d o
  = (true,
     if Qgt_b (open d 0) (close d 0) then
       if Qge_b (Order.created_pricelimit o) (Order.created_price o)
       then Fill (datetime d 0) (Order.created_price o)
       else if Qge_b (Order.created_pricelimit o) (close d 0)
            then Fill (datetime d 0) (Order.created_pricelimit o)
            else NoFill
     else
       if Qge_b (Order.created_pricelimit o) (Order.created_price o)
       then Fill (datetime d 0) (Order.created_price o)
       else NoFill).
Proof.
  intros Hs Ht Hn Hgap Hhigh.
  apply Qge_b_false in Hgap. apply Qge_b_true in Hhigh.
  rewrite fill_rule_stoplimit by assumption.
  unfold stoplimit_rule. now rewrite Hs, Hgap, Hhigh.
Qed.

(** The sell side is not the mirror of the buy side: on the bar that opens
    and closes at 100 the sell StopLimit with trigger 98 and limit 99 fills
    at its limit, where the mirrored rule has a single branch and leaves it
    pending. *)
Lemma sell_intrabar_not_mirror : ~ sell_intrabar_is_mirror.
Proof.
  intros H.
  specialize (H Python3 doji_bar doji_order eq_refl eq_refl eq_refl).
  assert (H1 : Order.created_price doji_order < open doji_bar 0)
    by reflexivity.
  assert (H2 : low doji_bar 0 <= Order.created_price doji_order)
    by discriminate.
  specialize (H H1 H2). vm_compute in H. discriminate H.
Qed.

(** The intrabar sub-rule as [next] has it.  A sell StopLimit that has not
    triggered, on a bar that opens above the trigger and trades down to it,
    is marked triggered and:
    when [open <= close] it fills at the trigger if [limit <= trigger], else
    at the limit if [limit <= close], else stays pending; when
    [open > close] it fills at the trigger if [limit <= trigger], else stays
    pending.  A bar with [open = close] takes the two-branch rule on the
    sell side; on the buy side it takes the single-branch rule. *)
Theorem sell_stoplimit_intrabar_rule v feeds r o b :
  let d := feeds (Order.data o) in
  let trigger := Order.created_price o in
  let plimit := Order.created_pricelimit o in
  let dt0 := datetime d 0 in
  let o' := Order.set_triggered true o in
  not_expired o d ->
  Order.exectype o = Order.StopLimit ->
  Order.triggered o = false ->
  (Order.ordtype o = Order.Sell ->
   trigger < open d 0 -> low d 0 <= trigger ->
     (plimit <= trigger -> executes_at v feeds r o b o' dt0 trigger) /\
     (open d 0 <= close d 0 -> trigger < plimit -> plimit <= close d 0 ->
        executes_at v feeds r o b o' dt0 plimit) /\
     (open d 0 <= close d 0 -> trigger < plimit -> close d 0 < plimit ->
        Order.alive o = true -> stays_pending v feeds r o b o') /\
     (close d 0 < open d 0 -> trigger < plimit ->
        Order.alive o = true -> stays_pending v feeds r o b o')) /\
  (Order.ordtype o = Order.Buy ->
   open d 0 < trigger -> trigger <= high d 0 ->
   open d 0 <= close d 0 -> plimit < trigger ->
   Order.alive o = true -> stays_pending v feeds r o b o').
Proof.
  intros d trigger plimit dt0 o' He Ht Hn. split.
  - intros Hs Hgap Hlow.
    pose proof (sell_stoplimit_intrabar_code v d o Hs Ht Hn Hgap Hlow)
      as Hrule.
    fold trigger plimit dt0 in Hrule.
    split; [|split; [|split]].
    + intros H1. apply Qle_b_true in H1. rewrite H1 in Hrule.
      apply process_fill; [exact He|].
      now destruct (Qle_b (open d 0) (close d 0)).
    + intros H0 H1 H2. apply Qle_b_true in H0. apply Qle_b_false in H1.
      apply Qle_b_true in H2. rewrite H0, H1, H2 in Hrule.
      now apply process_fill.
    + intros H0 H1 H2 Ha. apply Qle_b_true in H0. apply Qle_b_false in H1.
      apply Qle_b_false in H2. rewrite H0, H1, H2 in Hrule.
      now apply process_nofill.
    + intros H0 H1 Ha. apply Qle_b_false in H0. apply Qle_b_false in H1.
      rewrite H0, H1 in Hrule. now apply process_nofill.
  - intros Hs Hgap Hhigh H0 H1 Ha.
    pose proof (buy_stoplimit_intrabar_code v d o Hs Ht Hn Hgap Hhigh)
      as Hrule.
    fold trigger plimit dt0 in Hrule.
    apply Qgt_b_false in H0. apply Qge_b_false in H1.
    rewrite H0, H1 in Hrule. now apply process_nofill.
Qed.

Lemma sell_stoplimit_intrabar_rule_witness :
  not_expired doji_order doji_bar /\
  Order.exectype doji_order = Order.StopLimit /\
  Order.triggered doji_order = false /\
  executes_at Python3 (feeds_of doji_bar) 1%positive doji_order
    (one_order_broker stock_scheme doji_order)
    (Order.set_triggered true doji_order) (noon 2) 99.
Proof.
  split; [reflexivity|]. split; [reflexivity|]. split; [reflexivity|].
  refine (proj1 (proj2 (proj1
    (sell_stoplimit_intrabar_rule Python3 (feeds_of doji_bar) 1%positive
       doji_order (one_order_broker stock_scheme doji_order)
       eq_refl eq_refl eq_refl) eq_refl _ _)) _ _ _).
  - reflexivity.
  - discriminate.
  - discriminate.
  - reflexivity.
  - discriminate.
Defined.

(** ** The queue pass *)

Lemma expire_cases (o : Order) (now : DateTime) :
  Order.expire o now = (true, Order.set_status Order.Expired o) \/
  Order.expire o now = (false, o).
Proof.
  unfold Order.expire. destruct (Order.valid o) as [u|]; [|now right].
  destruct (dt_gt now u); [now left | now right].
Qed.

Lemma execute_effect feeds r o dt price b :
  exists f,
    heap (_execute feeds r o dt price b) = <[r := Order.execute o f]> (heap b)
    /\ Order.fill_dt f = dt /\ Order.fill_price f = price
    /\ Order.fill_size f = Order.executed_remsize o.
Proof.
  unfold _execute, positions_getitem.
  destruct (positions b !! Order.data o);
    destruct (Position.update _ _ _) as [p' [[[ps pp] op] cl]];
    eexists; repeat split.
Qed.

(** The effect of one loop body on the store, the queue and the
    notifications. *)
Lemma process_order_effect v feeds r o b :
  raises v feeds o = false ->
  exists b2 o2,
    process_order v feeds r o b = (b2, Normal) /\
    heap b2 = <[r := o2]> (heap b) /\
    pending b2 = pending b ++ (if requeued v feeds o then [r] else []) /\
    notifs b2 = notifs b ++ (if notified v feeds o then [r] else []) /\
    evaluated_once v feeds o o2.
Proof.
  unfold raises, requeued, notified, evaluated_once, verdict, process_order.
  destruct (expire_cases o (datetime (feeds (Order.data o)) 0)) as [-> | ->];
    simpl.
  - intros _. do 2 eexists. split; [reflexivity|]. simpl.
    rewrite app_nil_r. repeat split.
  - destruct (fill_rule v (feeds (Order.data o)) o) as [t [dt p | | e]];
      intros Hr; [| |discriminate].
    + rewrite requeue_execute.
      destruct (execute_effect feeds r (Order.set_triggered t o) dt p
                  (store r (Order.set_triggered t o) b))
        as (f & Hh & Hdt & Hp & Hs).
      do 2 eexists. split; [reflexivity|].
      rewrite Hh, pending_execute, notifs_execute. simpl.
      rewrite insert_insert_eq, app_nil_r. repeat split.
      exists f. repeat split; assumption.
    + unfold requeue. simpl. rewrite lookup_insert_eq.
      rewrite alive_set_triggered.
      destruct (Order.alive o); do 2 eexists;
        (split; [reflexivity|]); simpl; rewrite ?app_nil_r; repeat split.
Qed.

Lemma on_object_agree (h h' : gmap OrderRef Order) f (rs : list OrderRef) :
  (forall r, r ∈ rs -> h' !! r = h !! r) ->
  List.filter (on_object h' f) rs = List.filter (on_object h f) rs.
Proof.
  intros H. apply List.filter_ext_in. intros r Hr.
  unfold on_object. rewrite H; [reflexivity|]. now apply list_elem_of_In.
Qed.

(** The iteration over a snapshot without repetition: every order of the
    snapshot is evaluated once, on the content it had before the pass. *)
Lemma pass_over_spec v feeds rs :
  forall b,
    NoDup rs ->
    (forall r, r ∈ rs -> is_Some (heap b !! r)) ->
    (forall r o, r ∈ rs -> heap b !! r = Some o -> raises v feeds o = false) ->
    exists b',
      pass_over v feeds rs b = (b', Normal) /\
      pending b'
      = pending b ++ List.filter (on_object (heap b) (requeued v feeds)) rs /\
      notifs b'
      = notifs b ++ List.filter (on_object (heap b) (notified v feeds)) rs /\
      (forall r, r ∉ rs -> heap b' !! r = heap b !! r) /\
      (forall r o, r ∈ rs -> heap b !! r = Some o ->
         exists o2, heap b' !! r = Some o2 /\ evaluated_once v feeds o o2).
Proof.
  induction rs as [|r rs IH]; intros b Hnd Hwf Hnr.
  - exists b. simpl. rewrite !app_nil_r. repeat split.
    intros r o Hr. now apply elem_of_nil in Hr.
  - apply NoDup_cons in Hnd as [Hnotin Hnd].
    destruct (Hwf r) as [o Ho]; [now left|].
    destruct (process_order_effect v feeds r o b) as
      (b2 & o2 & Hp & Hh & Hq & Hn & He).
    { apply (Hnr r o); [now left | exact Ho]. }
    assert (Hsame : forall r', r' ∈ rs -> heap b2 !! r' = heap b !! r').
    { intros r' Hr'. rewrite Hh. apply lookup_insert_ne. intros ->.
      now apply Hnotin. }
    destruct (IH b2 Hnd) as (b' & Hpass & Hq' & Hn' & Hout & Hin).
    { intros r' Hr'. rewrite Hsame by exact Hr'. apply Hwf. now right. }
    { intros r' o' Hr' Ho'. rewrite Hsame in Ho' by exact Hr'.
      apply (Hnr r' o'); [now right | exact Ho']. }
    exists b'. simpl. rewrite Ho, Hp. split; [exact Hpass|].
    rewrite (on_object_agree (heap b) (heap b2)) in Hq' by exact Hsame.
    rewrite (on_object_agree (heap b) (heap b2)) in Hn' by exact Hsame.
    assert (Hobj : forall f, on_object (heap b) f r = f o)
      by (intros f; unfold on_object; now rewrite Ho).
    rewrite !Hobj.
    split; [|split; [|split]].
    + rewrite Hq', Hq, <- app_assoc.
      now destruct (requeued v feeds o).
    + rewrite Hn', Hn, <- app_assoc.
      now destruct (notified v feeds o).
    + intros r' Hr'. apply not_elem_of_cons in Hr' as [Hne Hr'].
      rewrite (Hout r' Hr'), Hh. now apply lookup_insert_ne.
    + intros r' o' Hr' Ho'. apply elem_of_cons in Hr' as [-> | Hr'].
      * rewrite Ho in Ho'. injection Ho' as <-.
        exists o2. split; [|exact He].
        rewrite (Hout r Hnotin), Hh. apply lookup_insert_eq.
      * apply (Hin r' o' Hr'). now rewrite Hsame.
Qed.

Lemma execute_set_pending feeds r o dt price l b :
  _execute feeds r o dt price (set_pending l b)
  = set_pending l (_execute feeds r o dt price b).
Proof.
  unfold _execute, positions_getitem. simpl.
  destruct (positions b !! Order.data o);
    destruct (Position.update _ _ _) as [p' [[[ps pp] op] cl]];
    reflexivity.
Qed.

Lemma requeue_frame r pre b :
  requeue r (set_pending (pre ++ pending b) b)
  = set_pending (pre ++ pending (requeue r b)) (requeue r b).
Proof.
  unfold requeue. simpl. destruct (heap b !! r) as [o|]; [|reflexivity].
  destruct (Order.alive o); [|reflexivity].
  unfold set_pending. simpl. now rewrite app_assoc.
Qed.

(** The loop body only appends to the queue: orders waiting in front of it
    are left where they are. *)
Lemma process_order_frame v feeds r o b pre :
  process_order v feeds r o (set_pending (pre ++ pending b) b)
  = (set_pending (pre ++ pending (process_order v feeds r o b).1)
                 (process_order v feeds r o b).1,
     (process_order v feeds r o b).2).
Proof.
  unfold process_order.
  destruct (Order.expire o _) as [[|] o1]; [reflexivity|].
  destruct (fill_rule v _ o1) as [t [dt p | | e]]; simpl.
  - change (store r (Order.set_triggered t o1)
              (set_pending (pre ++ pending b) b))
      with (set_pending (pre ++ pending b)
              (store r (Order.set_triggered t o1) b)).
    rewrite execute_set_pending, requeue_execute, pending_execute.
    unfold requeue. simpl.
    destruct (heap_execute feeds r (Order.set_triggered t o1) dt p
                (store r (Order.set_triggered t o1) b)) as [f ->].
    now rewrite lookup_insert_eq.
  - change (store r (Order.set_triggered t o1)
              (set_pending (pre ++ pending b) b))
      with (set_pending
              (pre ++ pending (store r (Order.set_triggered t o1) b))
              (store r (Order.set_triggered t o1) b)).
    now rewrite requeue_frame.
  - reflexivity.
Qed.

Lemma set_pending_same (b : BrokerBack) l :
  set_pending (pending b) (set_pending l b) = b.
Proof. now destruct b. Qed.

(** Popping [length rs] times from a queue that starts with [rs] is the
    iteration over [rs]. *)
Lemma queue_pass_pass_over v feeds rs :
  forall b tail b',
    pending b = rs ++ tail ->
    pass_over v feeds rs (set_pending tail b) = (b', Normal) ->
    queue_pass v feeds (length rs) b = (b', Normal).
Proof.
  induction rs as [|r rs IH]; intros b tail b' Hq Hp; simpl in *.
  - injection Hp as <-. rewrite <- Hq. now destruct b.
  - rewrite Hq.
    destruct (heap b !! r) as [o|]; [|discriminate].
    pose proof (process_order_frame v feeds r o (set_pending tail b) rs)
      as Hf.
    change (set_pending (rs ++ pending (set_pending tail b))
              (set_pending tail b))
      with (set_pending (rs ++ tail) b) in Hf.
    rewrite Hf.
    destruct (process_order v feeds r o (set_pending tail b))
      as [b2 [|e]]; [|discriminate]. simpl.
    apply (IH _ (pending b2)); [reflexivity|].
    now rewrite set_pending_same.
Qed.

Lemma python2_never_raises feeds o : raises Python2 feeds o = false.
Proof.
  unfold raises, verdict, fill_rule, stoplimit_rule, limit_rule, stop_rule,
    close_rule, le_builtin.
  destruct (Order.expire o _).1; [reflexivity|].
  destruct (Order.exectype o), (Order.ordtype o), (Order.triggered o);
    simpl; repeat (match goal with
                   | |- context [if ?c then _ else _] => destruct c
                   end; simpl); reflexivity.
Qed.

Lemma elem_of_filter_bool (f : OrderRef -> bool) (l : list OrderRef) r :
  r ∈ List.filter f l <-> r ∈ l /\ f r = true.
Proof. rewrite !list_elem_of_In. apply List.filter_In. Qed.

Lemma NoDup_filter_bool (f : OrderRef -> bool) (l : list OrderRef) :
  NoDup l -> NoDup (List.filter f l).
Proof.
  rewrite !NoDup_ListNoDup. apply List.NoDup_filter.
Qed.

(** The step of the broker as the iteration over the snapshot of its
    queue. *)
Lemma next_as_pass_over v feeds b :
  queue_ok b ->
  (forall r o, r ∈ pending b -> heap b !! r = Some o ->
               raises v feeds o = false) ->
  exists b',
    next v feeds b = (b', Normal) /\
    pending b'
    = List.filter (on_object (heap b) (requeued v feeds)) (pending b) /\
    notifs b'
    = notifs b
      ++ List.filter (on_object (heap b) (notified v feeds)) (pending b) /\
    (forall r, r ∉ pending b -> heap b' !! r = heap b !! r) /\
    (forall r o, r ∈ pending b -> heap b !! r = Some o ->
       exists o2, heap b' !! r = Some o2 /\ evaluated_once v feeds o o2).
Proof.
  intros [Hnd Hwf] Hnr. unfold next.
  set (b1 := sweep feeds b).
  destruct (pass_over_spec v feeds (pending b) (set_pending [] b1) Hnd Hwf Hnr)
    as (b' & Hpass & Hq & Hn & Hout & Hin).
  exists b'. split; [|now repeat split].
  apply (queue_pass_pass_over v feeds (pending b) b1 [] b');
    [simpl; now rewrite app_nil_r | exact Hpass].
Qed.


Lemma three_order_broker_ok : queue_ok three_order_broker.
Proof.
  split.
  - apply (bool_decide_unpack _). vm_compute. exact I.
  - intros r Hr. simpl in Hr.
    repeat (apply elem_of_cons in Hr as [-> | Hr]); [eexists; reflexivity ..|].
    now apply elem_of_nil in Hr.
Defined.

Lemma three_order_broker_quiet :
  forall r o, r ∈ pending three_order_broker ->
              heap three_order_broker !! r = Some o ->
              raises Python3 (feeds_of limit_touch_bar) o = false.
Proof.
  intros r o Hr. simpl in Hr.
  repeat (apply elem_of_cons in Hr as [-> | Hr]);
    [intros [= <-]; reflexivity ..|].
  now apply elem_of_nil in Hr.
Defined.


(** ** Cancellation *)

Lemma remove_first_subseteq r (l : list OrderRef) x :
  x ∈ remove_first r l -> x ∈ l.
Proof.
  induction l as [|y l IH]; simpl; [easy|].
  destruct (decide (y = r)) as [->|Hne].
  - intros Hx. now right.
  - intros Hx. apply elem_of_cons in Hx as [-> | Hx]; [now left|].
    right. now apply IH.
Qed.

Lemma NoDup_remove_first r (l : list OrderRef) :
  NoDup l -> NoDup (remove_first r l).
Proof.
  induction 1 as [|y l Hy Hnd IH]; simpl; [constructor|].
  destruct (decide (y = r)); [exact Hnd|].
  constructor; [|exact IH].
  intros Hin. apply Hy. now apply remove_first_subseteq in Hin.
Qed.

Lemma remove_first_gone r (l : list OrderRef) :
  NoDup l -> r ∉ remove_first r l.
Proof.
  induction 1 as [|y l Hy Hnd IH]; simpl; [apply not_elem_of_nil|].
  destruct (decide (y = r)) as [->|Hne]; [exact Hy|].
  apply not_elem_of_cons. split; [congruence | exact IH].
Qed.

Lemma remove_first_length r (l : list OrderRef) :
  r ∈ l -> S (length (remove_first r l)) = length l.
Proof.
  induction l as [|y l IH]; simpl; intros Hr; [now apply elem_of_nil in Hr|].
  destruct (decide (y = r)) as [->|Hne]; [reflexivity|].
  apply elem_of_cons in Hr as [-> | Hr]; [congruence|].
  simpl. now rewrite IH.
Qed.

(** C8. [cancel] on an order that is not in the queue answers [False] and
    leaves the broker as it was; no path of it raises.  On a pending order
    it takes the order out of the queue, sets its status to Canceled,
    appends it to the notifications and answers [True]; cash, positions and
    the other objects are untouched.  The queue holding each order once, a
    second [cancel] of the same order answers [False]. *)
Theorem cancel_spec r b :
  (r ∉ pending b -> cancel r b = (false, b)) /\
  (r ∈ pending b ->
     (cancel r b).1 = true /\
     pending (cancel r b).2 = remove_first r (pending b) /\
     S (length (pending (cancel r b).2)) = length (pending b) /\
     (forall o, heap b !! r = Some o ->
                heap (cancel r b).2 !! r
                = Some (Order.set_status Order.Canceled o)) /\
     (forall r', r' <> r -> heap (cancel r b).2 !! r' = heap b !! r') /\
     notifs (cancel r b).2 = notifs b ++ [r] /\
     cash (cancel r b).2 = cash b /\
     positions (cancel r b).2 = positions b /\
     (NoDup (pending b) ->
        (r ∉ pending (cancel r b).2) /\
        cancel r (cancel r b).2 = (false, (cancel r b).2))).
Proof.
  unfold cancel, deque_remove. split; intros Hr.
  - now rewrite decide_False.
  - rewrite decide_True by exact Hr. simpl.
    split; [reflexivity|]. split; [reflexivity|].
    split; [now apply remove_first_length|].
    split.
    { intros o Ho. rewrite lookup_alter_eq, Ho. reflexivity. }
    split.
    { intros r' Hne. now apply lookup_alter_ne. }
    do 3 (split; [reflexivity|]).
    intros Hnd. pose proof (remove_first_gone r _ Hnd) as Hgone.
    split; [exact Hgone|]. now rewrite decide_False.
Qed.

Lemma cancel_spec_witness :
  1%positive ∈ pending (one_order_broker stock_scheme limit_touch_order) /\
  NoDup (pending (one_order_broker stock_scheme limit_touch_order)) /\
  (cancel 1%positive (one_order_broker stock_scheme limit_touch_order)).1
  = true /\
  (cancel 1%positive
     (cancel 1%positive
        (one_order_broker stock_scheme limit_touch_order)).2).1 = false.
Proof.
  assert (Hin : 1%positive
                ∈ pending (one_order_broker stock_scheme limit_touch_order))
    by (simpl; left).
  assert (Hnd : NoDup (pending (one_order_broker stock_scheme
                                  limit_touch_order)))
    by (simpl; apply NoDup_singleton).
  split; [exact Hin|]. split; [exact Hnd|].
  destruct (proj2 (cancel_spec 1%positive
                     (one_order_broker stock_scheme limit_touch_order)) Hin)
    as (Htrue & _ & _ & _ & _ & _ & _ & _ & Htwice).
  split; [exact Htrue|].
  destruct (Htwice Hnd) as [_ ->]. reflexivity.
Defined.

(** The queue invariant is kept by every operation of the broker. *)
Lemma cancel_queue_ok r b : queue_ok b -> queue_ok (cancel r b).2.
Proof.
  intros [Hnd Hwf]. unfold cancel, deque_remove.
  destruct (decide (r ∈ pending b)) as [Hr|Hr]; [|now split].
  simpl. split.
  - now apply NoDup_remove_first.
  - intros x Hx. apply remove_first_subseteq in Hx.
    destruct (Hwf x Hx) as [o Ho].
    change (is_Some (alter Order.cancel r (heap b) !! x)).
    destruct (decide (x = r)) as [->|Hne].
    + rewrite lookup_alter_eq, Ho. eexists; reflexivity.
    + rewrite lookup_alter_ne by congruence. now exists o.
Qed.

Lemma submit_new_queue_ok o b :
  queue_ok b -> queue_ok (submit (new_order o b).1 (new_order o b).2).2.
Proof.
  intros [Hnd Hwf]. unfold submit, new_order. simpl.
  set (r := fresh (dom (heap b))).
  assert (Hfresh : heap b !! r = None).
  { apply not_elem_of_dom. apply is_fresh. }
  split.
  - apply NoDup_app. split; [exact Hnd|]. split; [|apply NoDup_singleton].
    intros x Hx Hx'. apply list_elem_of_singleton in Hx' as ->.
    destruct (Hwf r Hx) as [o' Ho']. congruence.
  - intros x Hx. apply elem_of_app in Hx as [Hx | Hx].
    + destruct (Hwf x Hx) as [o' Ho'].
      assert (x <> r) by congruence.
      change (is_Some (alter Order.accept r (<[r := o]> (heap b)) !! x)).
      rewrite lookup_alter_ne, lookup_insert_ne by congruence. now exists o'.
    + apply list_elem_of_singleton in Hx as ->.
      change (is_Some (alter Order.accept r (<[r := o]> (heap b)) !! r)).
      rewrite lookup_alter_eq, lookup_insert_eq. eexists; reflexivity.
Qed.

Lemma buy_queue_ok d size price et until b :
  queue_ok b -> queue_ok (buy d size price et until b).2.
Proof. apply submit_new_queue_ok. Qed.

Lemma sell_queue_ok d size price et until b :
  queue_ok b -> queue_ok (sell d size price et until b).2.
Proof. apply submit_new_queue_ok. Qed.

Lemma next_queue_ok v feeds b :
  queue_ok b ->
  (forall r o, r ∈ pending b -> heap b !! r = Some o ->
               raises v feeds o = false) ->
  queue_ok (next v feeds b).1.
Proof.
  intros Hok Hnr. pose proof Hok as [Hnd Hwf].
  destruct (next_as_pass_over v feeds b Hok Hnr)
    as (b' & -> & Hq & _ & _ & Hin).
  simpl. split.
  - rewrite Hq. now apply NoDup_filter_bool.
  - intros r Hr. rewrite Hq in Hr. apply elem_of_filter_bool in Hr as [Hr _].
    destruct (Hwf r Hr) as [o Ho].
    destruct (Hin r o Hr Ho) as (o2 & -> & _). now exists o2.
Qed.

Lemma init_queue_ok c ci : queue_ok (init c ci).
Proof.
  split; [constructor|]. intros r Hr. now apply elem_of_nil in Hr.
Qed.

(** ** Account value *)

Lemma foldl_Qplus {A} (f : A -> Q) (l : list A) :
  forall acc, foldl (fun a x => a + f x) acc l == acc + Qsum (map f l).
Proof.
  induction l as [|x l IH]; intros acc; simpl.
  - ring.
  - rewrite IH. ring.
Qed.

(** Over keys that are in the map, the loop of [getvalue] inserts nothing
    and adds up the values. *)
Lemma getvalue_loop_present feeds b (its : list (DataId * Position)) :
  (forall d p, (d, p) ∈ its -> positions b !! d = Some p) ->
  forall acc,
    getvalue_loop feeds its.*1 acc b
    = (foldl (fun a it => a + position_value feeds b it) acc its, b).
Proof.
  induction its as [|[d p] its IH]; intros Hin acc; simpl; [reflexivity|].
  unfold positions_getitem. rewrite (Hin d p) by left.
  apply IH. intros d' p' H'. apply Hin. now right.
Qed.

Lemma getvalue_zero_size ci p price :
  Position.size p = 0%Z -> CommissionInfo.getvalue ci p price == 0.
Proof.
  unfold CommissionInfo.getvalue. intros ->.
  destruct (CommissionInfo.margin ci); ring.
Qed.

Lemma Qsum_open_only (f : DataId * Position -> Q) l :
  (forall it, is_open it = false -> f it == 0) ->
  Qsum (map f l) == Qsum (map f (List.filter is_open l)).
Proof.
  intros Hz. induction l as [|it l IH]; simpl; [reflexivity|].
  destruct (is_open it) eqn:E; simpl; rewrite IH; [reflexivity|].
  rewrite (Hz it E). ring.
Qed.

(** C9. [getvalue()] returns the cash plus the sum, over the entries of the
    position map, of the value of the position at the current close, and
    changes nothing; an entry of size zero contributes zero, so the total
    is the cash plus the value of the open positions. *)
Theorem getvalue_total feeds b :
  (getvalue feeds None b).2 = b /\
  getvalue feeds (Some []) b = getvalue feeds None b /\
  (getvalue feeds None b).1
  == cash b + Qsum (map (position_value feeds b)
                        (map_to_list (positions b))) /\
  (forall ci avgprice price,
     CommissionInfo.getvalue ci (Position.mk 0 avgprice) price == 0) /\
  (getvalue feeds None b).1
  == cash b + Qsum (map (position_value feeds b)
                        (List.filter is_open (map_to_list (positions b)))).
Proof.
  assert (Hloop : getvalue feeds None b
                  = (cash b + foldl (fun a it => a + position_value feeds b it)
                                    0 (map_to_list (positions b)), b)).
  { unfold getvalue, positions_keys.
    rewrite (getvalue_loop_present feeds b (map_to_list (positions b))).
    - reflexivity.
    - intros d p H. now apply elem_of_map_to_list in H. }
  assert (Hsum : (getvalue feeds None b).1
                 == cash b + Qsum (map (position_value feeds b)
                                       (map_to_list (positions b)))).
  { rewrite Hloop. simpl. rewrite foldl_Qplus. ring. }
  split; [now rewrite Hloop|]. split; [reflexivity|].
  split; [exact Hsum|].
  split; [intros ci ap price; now apply getvalue_zero_size|].
  rewrite Hsum. apply Qplus_comp; [reflexivity|].
  apply Qsum_open_only. intros [d p] E. unfold position_value.
  apply getvalue_zero_size. unfold is_open in E. simpl in *.
  apply negb_false_iff in E. now apply Z.eqb_eq in E.
Qed.

(** ** Lazily created positions *)

Lemma positions_getitem_lookup d b d' :
  positions (positions_getitem d b).2 !! d'
  = if decide (d = d')
    then Some (default Position.empty (positions b !! d))
    else positions b !! d'.
Proof.
  unfold positions_getitem.
  destruct (positions b !! d) as [p|] eqn:E; simpl.
  - destruct (decide (d = d')) as [<-|]; [exact E | reflexivity].
  - now rewrite lookup_insert.
Qed.

(** The loop of [getvalue] over an explicit list leaves behind an entry for
    every instrument of the list. *)
Lemma getvalue_loop_lookup feeds l :
  forall acc b d,
    positions (getvalue_loop feeds l acc b).2 !! d
    = if decide (d ∈ l)
      then Some (default Position.empty (positions b !! d))
      else positions b !! d.
Proof.
  induction l as [|x l IH]; intros acc b d; simpl.
  - reflexivity.
  - pose proof (positions_getitem_lookup x b) as Hx.
    destruct (positions_getitem x b) as [p b1]. simpl in Hx.
    rewrite IH, !Hx.
    destruct (decide (x = d)) as [->|Hne].
    + rewrite (decide_True (P := d ∈ d :: l)) by left.
      simpl. now destruct (decide (d ∈ l)).
    + destruct (decide (d ∈ l)) as [Hin|Hnin].
      * rewrite decide_True by (now right). reflexivity.
      * rewrite decide_False; [reflexivity|].
        apply not_elem_of_cons. split; [congruence | exact Hnin].
Qed.

Lemma execute_keeps_keys feeds r o dt price b d :
  is_Some (positions b !! d) ->
  is_Some (positions (_execute feeds r o dt price b) !! d).
Proof.
  intros Hd. unfold _execute.
  pose proof (positions_getitem_lookup (Order.data o) b d) as Hg.
  destruct (positions_getitem (Order.data o) b) as [p b1]. simpl in Hg.
  destruct (Position.update p _ _) as [p' [[[ps pp] op] cl]]. simpl.
  rewrite lookup_insert. destruct (decide (Order.data o = d)); [eauto|].
  now rewrite Hg.
Qed.

Lemma process_order_keeps_keys v feeds r o b d :
  is_Some (positions b !! d) ->
  is_Some (positions (process_order v feeds r o b).1 !! d).
Proof.
  intros Hd. unfold process_order.
  destruct (Order.expire o _) as [[|] o1]; [exact Hd|].
  destruct (fill_rule v _ o1) as [t [dt p | | e]]; simpl.
  - rewrite requeue_execute. now apply execute_keeps_keys.
  - unfold requeue. simpl. rewrite lookup_insert_eq.
    now destruct (Order.alive _).
  - exact Hd.
Qed.

Lemma queue_pass_keeps_keys v feeds n :
  forall b d,
    is_Some (positions b !! d) ->
    is_Some (positions (queue_pass v feeds n b).1 !! d).
Proof.
  induction n as [|n IH]; intros b d Hd; simpl; [exact Hd|].
  destruct (pending b) as [|r rest]; [exact Hd|].
  destruct (heap b !! r) as [o|]; [|exact Hd].
  pose proof (process_order_keeps_keys v feeds r o (set_pending rest b) d Hd)
    as Hp.
  destruct (process_order v feeds r o (set_pending rest b)) as [b2 [|e]];
    [now apply IH | exact Hp].
Qed.

(** Entries of the position map are never removed by a step. *)
Lemma next_keeps_keys v feeds b d :
  is_Some (positions b !! d) ->
  is_Some (positions (next v feeds b).1 !! d).
Proof. intros Hd. unfold next. now apply queue_pass_keeps_keys. Qed.

(** C10. For an instrument that has no entry in the position map,
    [getposition] returns the default empty position and inserts it in the
    map, so the broker is not the same afterwards; [getvalue] with an
    explicit list naming the instrument inserts it as well.  The sweep of
    [next] iterates over the items of the map: the zero-size entry is one
    of them, and no step removes an entry. *)
Theorem getposition_inserts d b :
  positions b !! d = None ->
  (getposition d b).1 = Position.empty /\
  positions (getposition d b).2 = <[d := Position.empty]> (positions b) /\
  (getposition d b).2 <> b /\
  (forall feeds l,
     d ∈ l -> positions (getvalue feeds (Some l) b).2 !! d
              = Some Position.empty) /\
  (d, Position.empty) ∈ map_to_list (positions (getposition d b).2) /\
  (forall feeds,
     cash (sweep feeds (getposition d b).2)
     = foldl (fun c item => c + sweep_term feeds (getposition d b).2 item)
             (cash b)
             (map_to_list (<[d := Position.empty]> (positions b)))) /\
  (forall v feeds,
     is_Some (positions (next v feeds (getposition d b).2).1 !! d)).
Proof.
  intros Hd.
  assert (Hg : getposition d b
               = (Position.empty,
                  set_positions (<[d := Position.empty]> (positions b)) b)).
  { unfold getposition, positions_getitem. now rewrite Hd. }
  rewrite Hg. simpl.
  split; [reflexivity|]. split; [reflexivity|]. split.
  { intros Heq. apply (f_equal (fun x => positions x !! d)) in Heq.
    simpl in Heq. rewrite lookup_insert_eq, Hd in Heq. discriminate. }
  split.
  { intros feeds l Hl. unfold getvalue.
    assert (Hds : match l with [] => positions_keys b | _ => l end = l).
    { destruct l; [now apply elem_of_nil in Hl | reflexivity]. }
    rewrite Hds.
    pose proof (getvalue_loop_lookup feeds l 0 b d) as Hlook.
    destruct (getvalue_loop feeds l 0 b) as [pv b1]. simpl in *.
    rewrite Hlook, decide_True, Hd by exact Hl. reflexivity. }
  split.
  { apply elem_of_map_to_list. apply lookup_insert_eq. }
  split; [reflexivity|].
  intros v feeds. apply next_keeps_keys. simpl.
  rewrite lookup_insert_eq. eauto.
Qed.

Lemma getposition_inserts_witness :
  positions (init 10000 stock_scheme) !! 1%positive = None /\
  (getposition 1%positive (init 10000 stock_scheme)).1 = Position.empty /\
  positions (getposition 1%positive (init 10000 stock_scheme)).2
  = {[1%positive := Position.empty]}.
Proof.
  split; [reflexivity|].
  destruct (getposition_inserts 1%positive (init 10000 stock_scheme) eq_refl)
    as (H1 & H2 & _).
  split; [exact H1|]. rewrite H2. reflexivity.
Defined.

(** ** Cash flows of fills and of the sweep *)




Lemma next_no_orders v feeds b :
  pending b = [] -> next v feeds b = (sweep feeds b, Normal).
Proof. unfold next. simpl. now intros ->. Qed.




(** The round trip, bar by bar: the margin is posted and released, the
    sweep of the second bar adds 120 - 100 and the closed leg of the sale
    adds 120 - 110, the closed quantity being signed like the order. *)
Example round_trip_cash :
  round_trip.2 = Normal /\
  cash round_trip.1 == 10000 + (120 - 100) + (120 - 110) /\
  held_size round_trip.1 1%positive = 0%Z /\
  pending round_trip.1 = [].
Proof. vm_compute. repeat split. Qed.

(** Under Python 2 no order raises, and the step of the broker needs no
    other condition than the queue invariant. *)
Lemma next_queue_ok_python2 feeds b :
  queue_ok b -> queue_ok (next Python2 feeds b).1.
Proof.
  intros Hok. apply next_queue_ok; [exact Hok|].
  intros r o _ _. apply python2_never_raises.
Qed.

(** ** Further properties of the fill rules *)

(** X1. A Market order that has not expired is executed at the opening
    price of the current bar, stamped with the bar's time, whatever the
    prices of the bar; it leaves the queue and is notified once. *)
Theorem market_fills_at_open v feeds r o b :
  not_expired o (feeds (Order.data o)) ->
  Order.exectype o = Order.Market ->
  executes_at v feeds r o b o
    (datetime (feeds (Order.data o)) 0) (open (feeds (Order.data o)) 0) /\
  pending (process_order v feeds r o b).1 = pending b /\
  notifs (process_order v feeds r o b).1 = notifs b ++ [r].
Proof.
  intros He Ht.
  assert (Hex : executes_at v feeds r o b o
                  (datetime (feeds (Order.data o)) 0)
                  (open (feeds (Order.data o)) 0)).
  { apply process_fill_same; [exact He|]. unfold fill_rule. now rewrite Ht. }
  split; [exact Hex|]. unfold executes_at in Hex. rewrite Hex. simpl.
  now rewrite pending_execute, notifs_execute.
Qed.

Lemma market_fills_at_open_witness :
  not_expired (sample_order Order.Buy Order.Market 0 0) limit_touch_bar /\
  Order.exectype (sample_order Order.Buy Order.Market 0 0) = Order.Market /\
  executes_at Python3 (feeds_of limit_touch_bar) 1%positive
    (sample_order Order.Buy Order.Market 0 0)
    (one_order_broker stock_scheme (sample_order Order.Buy Order.Market 0 0))
    (sample_order Order.Buy Order.Market 0 0) (noon 2) 100.
Proof.
  split; [reflexivity|]. split; [reflexivity|].
  exact (proj1 (market_fills_at_open Python3 (feeds_of limit_touch_bar)
                  1%positive (sample_order Order.Buy Order.Market 0 0)
                  (one_order_broker stock_scheme
                     (sample_order Order.Buy Order.Market 0 0))
                  eq_refl eq_refl)).
Defined.

(** X2. An order whose [expire()] answers true is notified and dropped
    before any fill rule is looked at: the loop body ends normally under
    both interpreters, whatever the type and the prices of the order, and
    cash, positions and the queue are as they were. *)
Theorem expired_order_dropped v feeds r o b :
  (Order.expire o (datetime (feeds (Order.data o)) 0)).1 = true ->
  process_order v feeds r o b
  = (notify r
       (store r (Order.expire o (datetime (feeds (Order.data o)) 0)).2 b),
     Normal) /\
  cash (process_order v feeds r o b).1 = cash b /\
  positions (process_order v feeds r o b).1 = positions b /\
  pending (process_order v feeds r o b).1 = pending b /\
  notifs (process_order v feeds r o b).1 = notifs b ++ [r].
Proof.
  intros He. unfold process_order.
  destruct (Order.expire o _) as [e o1]. simpl in He. subst e.
  repeat split.
Qed.

Lemma expired_order_dropped_witness :
  (Order.expire stale_order (datetime limit_touch_bar 0)).1 = true /\
  pending (process_order Python3 (feeds_of limit_touch_bar) 3%positive
             stale_order (set_pending [] three_order_broker)).1 = [] /\
  cash (process_order Python3 (feeds_of limit_touch_bar) 3%positive
          stale_order (set_pending [] three_order_broker)).1 = 10000.
Proof.
  split; [reflexivity|].
  destruct (expired_order_dropped Python3 (feeds_of limit_touch_bar)
              3%positive stale_order (set_pending [] three_order_broker)
              eq_refl) as (_ & Hc & _ & Hp & _).
  split; [exact Hp | exact Hc].
Defined.

Lemma buy_stoplimit_gap_code v d o :
  Order.ordtype o = Order.Buy ->
  Order.exectype o = Order.StopLimit ->
  Order.triggered o = false ->
  Order.created_price o <= open d 0 ->
  fill_rule v d o
  = (true,
     if Qge_b (Order.created_pricelimit o) (open d 0)
     then Fill (datetime d 0) (open d 0)
     else if Qge_b (Order.created_pricelimit o) (low d 0)
          then Fill (datetime d 0) (Order.created_pricelimit o)
          else NoFill).
Proof.
  intros Hs Ht Hn Hgap. apply Qge_b_true in Hgap.
  rewrite fill_rule_stoplimit by assumption.
  unfold stoplimit_rule. now rewrite Hs, Hgap.
Qed.

(** X3. A buy StopLimit that has not triggered, on a bar that opens at or
    above the trigger, is marked triggered and fills at the open if
    [limit >= open], else at the limit if [limit >= low], else stays
    pending.  On a bar that opens below the trigger and reaches it, it is
    marked triggered and fills at the trigger if [limit >= trigger]; with
    [limit < trigger] it fills at the limit only on a bar with
    [open > close] and [limit >= close], and stays pending otherwise. *)
Theorem buy_stoplimit_rule v feeds r o b :
  let d := feeds (Order.data o) in
  let trigger := Order.created_price o in
  let plimit := Order.created_pricelimit o in
  let dt0 := datetime d 0 in
  let o' := Order.set_triggered true o in
  not_expired o d ->
  Order.exectype o = Order.StopLimit ->
  Order.triggered o = false ->
  Order.ordtype o = Order.Buy ->
  (trigger <= open d 0 ->
     (open d 0 <= plimit -> executes_at v feeds r o b o' dt0 (open d 0)) /\
     (plimit < open d 0 -> low d 0 <= plimit ->
        executes_at v feeds r o b o' dt0 plimit) /\
     (plimit < open d 0 -> plimit < low d 0 -> Order.alive o = true ->
        stays_pending v feeds r o b o')) /\
  (open d 0 < trigger -> trigger <= high d 0 ->
     (trigger <= plimit -> executes_at v feeds r o b o' dt0 trigger) /\
     (close d 0 < open d 0 -> plimit < trigger -> close d 0 <= plimit ->
        executes_at v feeds r o b o' dt0 plimit) /\
     (close d 0 < open d 0 -> plimit < trigger -> plimit < close d 0 ->
        Order.alive o = true -> stays_pending v feeds r o b o') /\
     (open d 0 <= close d 0 -> plimit < trigger ->
        Order.alive o = true -> stays_pending v feeds r o b o')).
Proof.
  intros d trigger plimit dt0 o' He Ht Hn Hs. split.
  - intros Hgap.
    pose proof (buy_stoplimit_gap_code v d o Hs Ht Hn Hgap) as Hrule.
    fold trigger plimit dt0 in Hrule.
    split; [|split].
    + intros H1. apply Qge_b_true in H1. rewrite H1 in Hrule.
      now apply process_fill.
    + intros H1 H2. apply Qge_b_false in H1. apply Qge_b_true in H2.
      rewrite H1, H2 in Hrule. now apply process_fill.
    + intros H1 H2 Ha. apply Qge_b_false in H1. apply Qge_b_false in H2.
      rewrite H1, H2 in Hrule. now apply process_nofill.
  - intros Hgap Hhigh.
    pose proof (buy_stoplimit_intrabar_code v d o Hs Ht Hn Hgap Hhigh)
      as Hrule.
    fold trigger plimit dt0 in Hrule.
    split; [|split; [|split]].
    + intros H1. apply Qge_b_true in H1. rewrite H1 in Hrule.
      apply process_fill; [exact He|].
      now destruct (Qgt_b (open d 0) (close d 0)).
    + intros H0 H1 H2. apply Qgt_b_true in H0. apply Qge_b_false in H1.
      apply Qge_b_true in H2. rewrite H0, H1, H2 in Hrule.
      now apply process_fill.
    + intros H0 H1 H2 Ha. apply Qgt_b_true in H0. apply Qge_b_false in H1.
      apply Qge_b_false in H2. rewrite H0, H1, H2 in Hrule.
      now apply process_nofill.
    + intros H0 H1 Ha. apply Qgt_b_false in H0. apply Qge_b_false in H1.
      rewrite H0, H1 in Hrule. now apply process_nofill.
Qed.

Lemma buy_stoplimit_rule_witness :
  not_expired stoplimit_buy_order gap_up_bar /\
  Order.exectype stoplimit_buy_order = Order.StopLimit /\
  Order.triggered stoplimit_buy_order = false /\
  Order.ordtype stoplimit_buy_order = Order.Buy /\
  stays_pending Python3 (feeds_of gap_up_bar) 1%positive stoplimit_buy_order
    (one_order_broker stock_scheme stoplimit_buy_order)
    (Order.set_triggered true stoplimit_buy_order).
Proof.
  do 4 (split; [reflexivity|]).
  refine (proj2 (proj2 (proj1
    (buy_stoplimit_rule Python3 (feeds_of gap_up_bar) 1%positive
       stoplimit_buy_order (one_order_broker stock_scheme stoplimit_buy_order)
       eq_refl eq_refl eq_refl eq_refl) _)) _ _ _).
  - discriminate.
  - reflexivity.
  - reflexivity.
  - reflexivity.
Defined.

(** X4. A StopLimit that has not triggered, on a bar that does not reach
    its trigger (buy: open and high below it; sell: open and low above it),
    stays pending and stays untriggered. *)
Theorem stoplimit_stays_armed v feeds r o b :
  let d := feeds (Order.data o) in
  let trigger := Order.created_price o in
  not_expired o d ->
  Order.exectype o = Order.StopLimit ->
  Order.triggered o = false ->
  Order.alive o = true ->
  (Order.ordtype o = Order.Buy /\ open d 0 < trigger /\ high d 0 < trigger) \/
  (Order.ordtype o = Order.Sell /\ trigger < open d 0 /\ trigger < low d 0) ->
  stays_pending v feeds r o b o /\
  fill_rule v d o = (false, NoFill).
Proof.
  intros d trigger He Ht Hn Ha Hside. subst d trigger.
  assert (Hrule : fill_rule v (feeds (Order.data o)) o = (false, NoFill)).
  { rewrite fill_rule_stoplimit by assumption. unfold stoplimit_rule.
    destruct Hside as [(Hs & H1 & H2) | (Hs & H1 & H2)]; rewrite Hs.
    - apply Qge_b_false in H1. apply Qge_b_false in H2.
      now rewrite H1, H2.
    - apply Qle_b_false in H1. apply Qle_b_false in H2.
      now rewrite H1, H2. }
  split; [|exact Hrule].
  apply process_nofill_same; [exact He | now rewrite Hn | exact Ha].
Qed.

Lemma stoplimit_stays_armed_witness :
  not_expired stoplimit_buy_order quiet_bar /\
  Order.alive stoplimit_buy_order = true /\
  stays_pending Python3 (feeds_of quiet_bar) 1%positive stoplimit_buy_order
    (one_order_broker stock_scheme stoplimit_buy_order) stoplimit_buy_order.
Proof.
  split; [reflexivity|]. split; [reflexivity|].
  refine (proj1 (stoplimit_stays_armed Python3 (feeds_of quiet_bar)
                   1%positive stoplimit_buy_order
                   (one_order_broker stock_scheme stoplimit_buy_order)
                   eq_refl eq_refl eq_refl eq_refl _)).
  left. split; [reflexivity|]. split; reflexivity.
Defined.

(** X5. The trigger is latched.  Once a StopLimit has been marked
    triggered without filling, the next evaluation ignores the trigger
    price: a buy fills at the open of any later bar that opens at or below
    the limit, a sell at the open of any later bar that opens at or above
    it, even if that bar never reaches the trigger. *)
Theorem stoplimit_latch v feeds1 feeds2 r o b b2 :
  let o' := Order.set_triggered true o in
  let d2 := feeds2 (Order.data o) in
  Order.exectype o = Order.StopLimit ->
  stays_pending v feeds1 r o b o' ->
  not_expired o' d2 ->
  (Order.ordtype o = Order.Buy /\ open d2 0 <= Order.created_pricelimit o) \/
  (Order.ordtype o = Order.Sell /\ Order.created_pricelimit o <= open d2 0) ->
  heap (process_order v feeds1 r o b).1 !! r = Some o' /\
  executes_at v feeds2 r o' b2 o' (datetime d2 0) (open d2 0).
Proof.
  intros o' d2 Ht Hstay He Hside. split.
  - unfold stays_pending in Hstay. rewrite Hstay. simpl.
    apply lookup_insert_eq.
  - apply process_fill_same; [exact He|].
    change (Order.data o') with (Order.data o). fold d2.
    rewrite fill_rule_limit by (right; split; [exact Ht | reflexivity]).
    unfold limit_rule. simpl.
    destruct Hside as [[Hs H1] | [Hs H1]]; rewrite Hs.
    + apply Qge_b_true in H1. now rewrite H1.
    + apply Qle_b_true in H1. now rewrite H1.
Qed.

Lemma stoplimit_latch_witness :
  Order.exectype stoplimit_buy_order = Order.StopLimit /\
  stays_pending Python3 (feeds_of gap_up_bar) 1%positive stoplimit_buy_order
    (one_order_broker stock_scheme stoplimit_buy_order)
    (Order.set_triggered true stoplimit_buy_order) /\
  high quiet_bar 0 < Order.created_price stoplimit_buy_order /\
  executes_at Python3 (feeds_of quiet_bar) 1%positive
    (Order.set_triggered true stoplimit_buy_order)
    (one_order_broker stock_scheme
       (Order.set_triggered true stoplimit_buy_order))
    (Order.set_triggered true stoplimit_buy_order) (noon 3) 107.
Proof.
  assert (Hstay : stays_pending Python3 (feeds_of gap_up_bar) 1%positive
                    stoplimit_buy_order
                    (one_order_broker stock_scheme stoplimit_buy_order)
                    (Order.set_triggered true stoplimit_buy_order)).
  { apply process_nofill; reflexivity. }
  split; [reflexivity|]. split; [exact Hstay|]. split; [reflexivity|].
  refine (proj2 (stoplimit_latch Python3 (feeds_of gap_up_bar)
                   (feeds_of quiet_bar) 1%positive stoplimit_buy_order
                   (one_order_broker stock_scheme stoplimit_buy_order)
                   (one_order_broker stock_scheme
                      (Order.set_triggered true stoplimit_buy_order))
                   eq_refl Hstay eq_refl _)).
  left. split; [reflexivity | discriminate].
Defined.

(** X6. Price protection.  Whenever the rules of [next] fill a Limit
    order, a triggered StopLimit or a buy StopLimit, the price is never
    worse than the limit (buy: at most the limit, sell: at least the
    limit); whenever they fill a Stop order, the price is never better than
    the trigger (buy: at least the trigger, sell: at most the trigger). *)
Theorem fill_price_bounds v d o t dt price :
  fill_rule v d o = (t, Fill dt price) ->
  ((Order.exectype o = Order.Limit \/
    (Order.exectype o = Order.StopLimit /\
     (Order.triggered o = true \/ Order.ordtype o = Order.Buy))) ->
   match Order.ordtype o with
   | Order.Buy => price <= Order.created_pricelimit o
   | Order.Sell => Order.created_pricelimit o <= price
   end) /\
  (Order.exectype o = Order.Stop ->
   match Order.ordtype o with
   | Order.Buy => Order.created_price o <= price
   | Order.Sell => price <= Order.created_price o
   end).
Proof.
  intros Hf.
  assert (Hlimit : forall side dt0 plimit popen plow phigh,
            limit_rule side dt0 plimit popen plow phigh = Fill dt price ->
            match side with
            | Order.Buy => price <= plimit
            | Order.Sell => plimit <= price
            end).
  { intros side dt0 plimit popen plow phigh. unfold limit_rule.
    destruct side.
    - destruct (Qge_b plimit popen) eqn:E1;
        [intros [= _ <-]; now apply Qge_b_true|].
      destruct (Qge_b plimit plow); [intros [= _ <-]; apply Qle_refl|easy].
    - destruct (Qle_b plimit popen) eqn:E1;
        [intros [= _ <-]; now apply Qle_b_true|].
      destruct (Qle_b plimit phigh); [intros [= _ <-]; apply Qle_refl|easy]. }
  split.
  - intros [Ht | [Ht Hor]].
    + rewrite fill_rule_limit in Hf by now left.
      injection Hf as _ Hf. exact (Hlimit _ _ _ _ _ _ Hf).
    + destruct (Order.triggered o) eqn:Etr.
      * rewrite fill_rule_limit in Hf by (right; now split).
        injection Hf as _ Hf. exact (Hlimit _ _ _ _ _ _ Hf).
      * destruct Hor as [Hor | Hs]; [discriminate|].
        rewrite fill_rule_stoplimit in Hf by assumption.
        rewrite Hs in *. unfold stoplimit_rule in Hf.
        destruct (Qge_b (open d 0) (Order.created_price o)).
        -- injection Hf as _ Hf.
           exact (Hlimit Order.Buy _ _ _ _ (high d 0) Hf).
        -- destruct (Qge_b (high d 0) (Order.created_price o));
             [|discriminate].
           injection Hf as _ Hf.
           destruct (Qgt_b (open d 0) (close d 0));
             destruct (Qge_b (Order.created_pricelimit o)
                             (Order.created_price o)) eqn:E1;
             try (injection Hf as _ <-; now apply Qge_b_true);
             try discriminate.
           destruct (Qge_b (Order.created_pricelimit o) (close d 0));
             [injection Hf as _ <-; apply Qle_refl | discriminate].
  - intros Ht. rewrite fill_rule_stop in Hf by exact Ht.
    injection Hf as _ Hf. unfold stop_rule in Hf.
    destruct (Order.ordtype o).
    + destruct (Qge_b (open d 0) (Order.created_price o)) eqn:E1;
        [injection Hf as _ <-; now apply Qge_b_true|].
      destruct (Qge_b (high d 0) (Order.created_price o));
        [injection Hf as _ <-; apply Qle_refl | discriminate].
    + destruct (Qle_b (open d 0) (Order.created_price o)) eqn:E1;
        [injection Hf as _ <-; now apply Qle_b_true|].
      destruct (Qle_b (low d 0) (Order.created_price o));
        [injection Hf as _ <-; apply Qle_refl | discriminate].
Qed.

Lemma fill_price_bounds_witness :
  fill_rule Python3 limit_touch_bar limit_touch_order
  = (false, Fill (noon 2) 95) /\
  95 <= Order.created_pricelimit limit_touch_order.
Proof.
  split; [reflexivity|].
  exact (proj1 (fill_price_bounds Python3 limit_touch_bar limit_touch_order
                  false (noon 2) 95 eq_refl) (or_introl eq_refl)).
Defined.

(** ** What a step never does *)

Lemma pending_process_order_length v feeds r o b :
  (length (pending b)
   <= length (pending (process_order v feeds r o b).1))%nat.
Proof.
  unfold process_order.
  destruct (Order.expire o _) as [[|] o1]; [simpl; lia|].
  destruct (fill_rule v _ o1) as [t [dt p | | e]]; simpl.
  - rewrite requeue_execute, pending_execute. simpl. lia.
  - unfold requeue. simpl. rewrite lookup_insert_eq.
    destruct (Order.alive _); simpl; [rewrite length_app|]; lia.
  - lia.
Qed.

Lemma queue_pass_no_index_error v feeds n :
  forall b, (n <= length (pending b))%nat ->
            (queue_pass v feeds n b).2 <> Raised IndexError.
Proof.
  induction n as [|n IH]; intros b Hn; simpl; [discriminate|].
  destruct (pending b) as [|r rest] eqn:E; [simpl in Hn; lia|].
  destruct (heap b !! r) as [o|]; [|discriminate].
  pose proof (pending_process_order_length v feeds r o (set_pending rest b))
    as Hlen.
  destruct (process_order v feeds r o (set_pending rest b)) as [b2 [|e]] eqn:Ep.
  - apply IH. simpl in *. lia.
  - simpl. intros [= ->].
    revert Ep. unfold process_order.
    destruct (Order.expire o _) as [[|] o1]; [discriminate|].
    destruct (fill_rule v _ o1) as [t [dt p | | e]] eqn:Ef; try discriminate.
    intros [= _ ->].
    unfold fill_rule, stoplimit_rule, limit_rule, stop_rule, close_rule,
      le_builtin in Ef.
    destruct (Order.exectype o1), (Order.ordtype o1), (Order.triggered o1), v;
      simpl in Ef;
      repeat (match type of Ef with
              | context [if ?c then _ else _] => destruct c
              end; simpl in Ef);
      congruence.
Qed.

(** X7. The queue loop of [next] never pops from an empty queue: whatever
    the broker holds, the step does not end in an [IndexError]. *)
Theorem next_never_pops_empty v feeds b :
  (next v feeds b).2 <> Raised IndexError.
Proof. unfold next. now apply queue_pass_no_index_error. Qed.

Lemma extends_refl b : extends b b.
Proof. repeat split; auto. Qed.

Lemma extends_trans b1 b2 b3 : extends b1 b2 -> extends b2 b3 -> extends b1 b3.
Proof.
  intros (H1 & H2 & H3 & H4 & H5 & H6) (K1 & K2 & K3 & K4 & K5 & K6).
  repeat split; try congruence.
  - now transitivity (notifs b2).
  - auto.
Qed.

Lemma extends_set_pending l b : extends b (set_pending l b).
Proof. repeat split; auto. Qed.

Lemma extends_store r o b : extends b (store r o b).
Proof.
  repeat split; auto. intros r' Hr'. simpl.
  destruct (decide (r = r')) as [<-|Hne].
  - rewrite lookup_insert_eq. eauto.
  - now rewrite lookup_insert_ne.
Qed.

Lemma extends_notify r b : extends b (notify r b).
Proof. repeat split; auto. simpl. now apply prefix_app_r. Qed.

Lemma extends_requeue r b : extends b (requeue r b).
Proof.
  unfold requeue. destruct (heap b !! r) as [o|]; [|apply extends_refl].
  destruct (Order.alive o); [apply extends_set_pending | apply extends_refl].
Qed.

Lemma extends_execute feeds r o dt price b :
  extends b (_execute feeds r o dt price b).
Proof.
  unfold _execute, positions_getitem.
  destruct (positions b !! Order.data o);
    destruct (Position.update _ _ _) as [p' [[[ps pp] op] cl]];
    (eapply extends_trans; [|apply extends_notify]);
    (eapply extends_trans; [|apply extends_store]);
    repeat split; auto.
Qed.

Lemma extends_process_order v feeds r o b :
  extends b (process_order v feeds r o b).1.
Proof.
  unfold process_order.
  destruct (Order.expire o _) as [[|] o1].
  - simpl. eapply extends_trans; [apply extends_store | apply extends_notify].
  - destruct (fill_rule v _ o1) as [t [dt p | | e]]; simpl.
    + eapply extends_trans; [apply extends_store|].
      eapply extends_trans; [apply extends_execute | apply extends_requeue].
    + eapply extends_trans; [apply extends_store | apply extends_requeue].
    + apply extends_store.
Qed.

Lemma extends_queue_pass v feeds n :
  forall b, extends b (queue_pass v feeds n b).1.
Proof.
  induction n as [|n IH]; intros b; simpl; [apply extends_refl|].
  destruct (pending b) as [|r rest]; [apply extends_refl|].
  destruct (heap b !! r) as [o|]; [|apply extends_set_pending].
  pose proof (extends_process_order v feeds r o (set_pending rest b)) as Hp.
  destruct (process_order v feeds r o (set_pending rest b)) as [b2 [|e]];
    simpl in *.
  - eapply extends_trans; [apply extends_set_pending|].
    eapply extends_trans; [exact Hp | apply IH].
  - eapply extends_trans; [apply extends_set_pending | exact Hp].
Qed.

(** X8. A step, however it ends, leaves the log of submitted orders, the
    starting cash and the commission schemes as they were, only appends to
    the notifications, and removes no order object. *)
Theorem next_extends v feeds b : extends b (next v feeds b).1.
Proof.
  unfold next.
  eapply extends_trans; [|apply extends_queue_pass].
  repeat split; auto.
Qed.

(** ** Submission, cancellation and the step *)

Lemma submit_new_effect o b :
  let r := (submit (new_order o b).1 (new_order o b).2).1 in
  let b' := (submit (new_order o b).1 (new_order o b).2).2 in
  heap b !! r = None /\
  heap b' !! r = Some (Order.accept o) /\
  (forall r', r' <> r -> heap b' !! r' = heap b !! r') /\
  pending b' = pending b ++ [r] /\
  orders b' = orders b ++ [r] /\
  cash b' = cash b /\ positions b' = positions b /\ notifs b' = notifs b.
Proof.
  unfold submit, new_order. simpl.
  set (r := fresh (dom (heap b))).
  assert (Hfresh : heap b !! r = None).
  { apply not_elem_of_dom. apply is_fresh. }
  split; [exact Hfresh|]. split.
  { now rewrite lookup_alter_eq, lookup_insert_eq. }
  split.
  { intros r' Hne.
    now rewrite lookup_alter_ne, lookup_insert_ne by congruence. }
  repeat split.
Qed.

(** X9. [buy] and [sell] create a new order object, accept it without any
    check of cash or margin, and append it to the log and to the tail of
    the queue; cash, positions, notifications and the other order objects
    are untouched. *)
Theorem buy_sell_effect side d size price et until b :
  let place := match side with Order.Buy => buy | Order.Sell => sell end in
  let r := (place d size price et until b).1 in
  let b' := (place d size price et until b).2 in
  heap b !! r = None /\
  heap b' !! r
  = Some (Order.accept (Order.create side d size price et until)) /\
  (forall r', r' <> r -> heap b' !! r' = heap b !! r') /\
  pending b' = pending b ++ [r] /\
  orders b' = orders b ++ [r] /\
  cash b' = cash b /\ positions b' = positions b /\ notifs b' = notifs b.
Proof.
  destruct side; simpl; unfold buy, sell.
  - exact (submit_new_effect
             (Order.create Order.Buy d size price et until) b).
  - exact (submit_new_effect
             (Order.create Order.Sell d size price et until) b).
Qed.

Lemma cancel_effect r b :
  (r ∉ pending b -> cancel r b = (false, b)) /\
  (r ∈ pending b ->
     pending (cancel r b).2 = remove_first r (pending b) /\
     heap (cancel r b).2 = alter Order.cancel r (heap b) /\
     (forall r', r' <> r -> heap (cancel r b).2 !! r' = heap b !! r')).
Proof.
  unfold cancel, deque_remove. split; intros Hr.
  - now rewrite decide_False.
  - rewrite decide_True by exact Hr. simpl.
    split; [reflexivity|]. split; [reflexivity|].
    intros r' Hne. now apply lookup_alter_ne.
Qed.

Lemma next_is_pass_over v feeds b :
  queue_ok b ->
  (forall r o, r ∈ pending b -> heap b !! r = Some o ->
               raises v feeds o = false) ->
  next v feeds b
  = pass_over v feeds (pending b) (set_pending [] (sweep feeds b)).
Proof.
  intros [Hnd Hwf] Hnr.
  destruct (pass_over_spec v feeds (pending b)
              (set_pending [] (sweep feeds b)) Hnd Hwf Hnr)
    as (b' & Hpass & _).
  rewrite Hpass. unfold next.
  apply (queue_pass_pass_over v feeds (pending b) (sweep feeds b) [] b');
    [simpl; now rewrite app_nil_r | exact Hpass].
Qed.

(** X10. A canceled order is out of the reach of the next step: after
    [cancel] the step neither evaluates nor changes the order, which stays
    Canceled and out of the queue, while the other orders are evaluated as
    usual. *)
Theorem canceled_order_not_evaluated v feeds r o b :
  queue_ok b ->
  r ∈ pending b ->
  heap b !! r = Some o ->
  (forall r' o', r' ∈ pending b -> r' <> r -> heap b !! r' = Some o' ->
                 raises v feeds o' = false) ->
  exists b2,
    next v feeds (cancel r b).2 = (b2, Normal) /\
    heap b2 !! r = Some (Order.cancel o) /\
    (r ∉ pending b2) /\
    pending b2
    = List.filter (on_object (heap b) (requeued v feeds))
                  (remove_first r (pending b)).
Proof.
  intros Hok Hr Ho Hnr. pose proof Hok as [Hnd Hwf].
  destruct (proj2 (cancel_effect r b) Hr)
    as (Hq1 & Hh1 & Hother).
  pose proof (remove_first_gone r _ Hnd) as Hgone. rewrite <- Hq1 in Hgone.
  assert (Hsame : forall r', r' ∈ pending (cancel r b).2 ->
                             heap (cancel r b).2 !! r' = heap b !! r').
  { intros r' Hr'. apply Hother. intros ->. now apply Hgone. }
  destruct (next_as_pass_over v feeds (cancel r b).2) as
    (b2 & Hnext & Hq & _ & Hout & _).
  { now apply cancel_queue_ok. }
  { intros r' o' Hr' Ho'. rewrite Hsame in Ho' by exact Hr'.
    apply (Hnr r' o'); [| |exact Ho'].
    - rewrite Hq1 in Hr'. now apply remove_first_subseteq in Hr'.
    - intros ->. now apply Hgone. }
  exists b2. split; [exact Hnext|]. split.
  { rewrite (Hout r Hgone), Hh1, lookup_alter_eq, Ho. reflexivity. }
  split.
  { rewrite Hq. intros Hin. apply elem_of_filter_bool in Hin as [Hin _].
    now apply Hgone. }
  rewrite Hq, <- Hq1. now apply on_object_agree.
Qed.

Lemma canceled_order_not_evaluated_witness :
  queue_ok three_order_broker /\
  2%positive ∈ pending three_order_broker /\
  heap three_order_broker !! 2%positive = Some stop_touch_order /\
  exists b2,
    next Python3 (feeds_of limit_touch_bar)
         (cancel 2%positive three_order_broker).2 = (b2, Normal) /\
    heap b2 !! 2%positive = Some (Order.cancel stop_touch_order) /\
    pending b2 = [].
Proof.
  assert (Hin : 2%positive ∈ pending three_order_broker)
    by (simpl; right; left).
  split; [exact three_order_broker_ok|]. split; [exact Hin|].
  split; [reflexivity|].
  destruct (canceled_order_not_evaluated Python3 (feeds_of limit_touch_bar)
              2%positive stop_touch_order three_order_broker
              three_order_broker_ok Hin eq_refl)
    as (b2 & Hnext & Hh & _ & Hq).
  { intros r' o' Hr' _. now apply three_order_broker_quiet. }
  exists b2. split; [exact Hnext|]. split; [exact Hh|].
  rewrite Hq. reflexivity.
Defined.

(** ** Commission schemes of the broker *)

(** X11. A scheme registered under a name is the one found for the feeds
    of that name and leaves the lookup of every other feed as it was; a
    feed without a registered name gets the scheme stored under [None];
    registering under [None] changes the scheme of exactly the feeds
    without a registered name; a new broker answers with its [commission]
    parameter for every feed. *)
Theorem commission_lookup :
  (forall ci n b d,
     _name d = Some n ->
     getcommissioninfo (addcommissioninfo ci (Some n) b) d = ci) /\
  (forall ci n b d,
     _name d <> Some n ->
     getcommissioninfo (addcommissioninfo ci (Some n) b) d
     = getcommissioninfo b d) /\
  (forall b d,
     (_name d = None \/ exists n, _name d = Some n /\ comminfo b !! n = None)
     -> getcommissioninfo b d = comminfo_None b) /\
  (forall ci b d,
     getcommissioninfo (addcommissioninfo ci None b) d
     = match _name d with
       | Some n => default ci (comminfo b !! n)
       | None => ci
       end) /\
  (forall commission margin mult n b d,
     _name d = Some n ->
     getcommissioninfo (setcommission commission margin mult (Some n) b) d
     = CommissionInfo.mk commission margin mult) /\
  (forall c ci d, getcommissioninfo (init c ci) d = ci).
Proof.
  unfold getcommissioninfo, addcommissioninfo.
  split; [|split; [|split; [|split; [|split]]]].
  - intros ci n b d ->. simpl. now rewrite lookup_insert_eq.
  - intros ci n b d Hne. simpl.
    destruct (_name d) as [m|]; [|reflexivity].
    rewrite lookup_insert_ne by congruence. reflexivity.
  - intros b d [-> | (n & -> & ->)]; reflexivity.
  - intros ci b d. simpl. destruct (_name d) as [m|]; [|reflexivity].
    now destruct (comminfo b !! m).
  - intros commission margin mult n b d ->. simpl.
    now rewrite lookup_insert_eq.
  - intros c ci d. simpl. destruct (_name d) as [m|]; [|reflexivity].
    now rewrite lookup_empty.
Qed.

Lemma commission_lookup_witness :
  _name named_bar = Some "ES"%string /\
  getcommissioninfo
    (addcommissioninfo future_scheme (Some "ES"%string)
       (init 10000 stock_scheme)) named_bar = future_scheme /\
  getcommissioninfo
    (addcommissioninfo future_scheme (Some "ES"%string)
       (init 10000 stock_scheme)) limit_touch_bar = stock_scheme.
Proof.
  split; [reflexivity|]. split.
  - exact (proj1 commission_lookup future_scheme "ES"%string
             (init 10000 stock_scheme) named_bar eq_refl).
  - rewrite (proj1 (proj2 commission_lookup) future_scheme "ES"%string
               (init 10000 stock_scheme) limit_touch_bar); [|discriminate].
    exact (proj2 (proj2 (proj2 (proj2 (proj2 commission_lookup))))
             10000 stock_scheme limit_touch_bar).
Defined.

(** ** Accessors *)

Lemma explicit_value_getitem feeds d b d' :
  explicit_value feeds (positions_getitem d b).2 d'
  = explicit_value feeds b d'.
Proof.
  unfold explicit_value. rewrite positions_getitem_lookup.
  unfold positions_getitem.
  destruct (decide (d = d')) as [<-|Hne];
    destruct (positions b !! d); reflexivity.
Qed.

Lemma getvalue_loop_explicit feeds l :
  forall acc b,
    (getvalue_loop feeds l acc b).1
    = foldl (fun a d => a + explicit_value feeds b d) acc l /\
    cash (getvalue_loop feeds l acc b).2 = cash b /\
    pending (getvalue_loop feeds l acc b).2 = pending b /\
    heap (getvalue_loop feeds l acc b).2 = heap b /\
    notifs (getvalue_loop feeds l acc b).2 = notifs b.
Proof.
  induction l as [|d l IH]; intros acc b; simpl; [repeat split|].
  pose proof (fun d' => explicit_value_getitem feeds d b d') as Hv.
  assert (Hp : (positions_getitem d b).1
               = default Position.empty (positions b !! d)).
  { unfold positions_getitem. now destruct (positions b !! d). }
  assert (Hframe : cash (positions_getitem d b).2 = cash b /\
                   pending (positions_getitem d b).2 = pending b /\
                   heap (positions_getitem d b).2 = heap b /\
                   notifs (positions_getitem d b).2 = notifs b).
  { unfold positions_getitem. now destruct (positions b !! d). }
  destruct (positions_getitem d b) as [p b1]. simpl in *. subst p.
  destruct (IH (acc + CommissionInfo.getvalue (getcommissioninfo b (feeds d))
                        (default Position.empty (positions b !! d))
                        (close (feeds d) 0)) b1)
    as (H1 & H2 & H3 & H4 & H5).
  destruct Hframe as (F1 & F2 & F3 & F4).
  split; [|repeat split; congruence].
  rewrite H1. clear -Hv.
  change (CommissionInfo.getvalue (getcommissioninfo b (feeds d))
            (default Position.empty (positions b !! d)) (close (feeds d) 0))
    with (explicit_value feeds b d).
  generalize (acc + explicit_value feeds b d).
  induction l as [|x l IHl]; intros a; simpl; [reflexivity|].
  now rewrite Hv, IHl.
Qed.

(** X12. [getvalue] with a non-empty explicit list returns the cash plus
    the value of the position of each listed instrument, an instrument
    without position counting as the empty position and an instrument
    listed twice counting twice; the call does not change cash, queue,
    notifications or order objects. *)
Theorem getvalue_explicit feeds l b :
  l <> [] ->
  (getvalue feeds (Some l) b).1
  == cash b + Qsum (map (explicit_value feeds b) l) /\
  cash (getvalue feeds (Some l) b).2 = cash b /\
  pending (getvalue feeds (Some l) b).2 = pending b /\
  heap (getvalue feeds (Some l) b).2 = heap b /\
  notifs (getvalue feeds (Some l) b).2 = notifs b.
Proof.
  intros Hl. unfold getvalue.
  assert (Hds : match l with [] => positions_keys b | _ => l end = l)
    by (now destruct l).
  rewrite Hds.
  destruct (getvalue_loop_explicit feeds l 0 b) as (H1 & H2 & H3 & H4 & H5).
  destruct (getvalue_loop feeds l 0 b) as [pv b1]. simpl in *.
  split; [|now repeat split].
  rewrite H1, H2, foldl_Qplus. ring.
Qed.

Lemma getvalue_explicit_witness :
  [1%positive; 1%positive] <> [] /\
  (getvalue (feeds_of (daily_bar 2 100 105 99 104 100))
            (Some [1%positive; 1%positive])
            (addcommissioninfo stock_scheme None holding_broker)).1
  == 10000 + 3 * 104 + 3 * 104.
Proof.
  assert (Hne : [1%positive; 1%positive] <> []) by discriminate.
  split; [exact Hne|].
  rewrite (proj1 (getvalue_explicit
                    (feeds_of (daily_bar 2 100 105 99 104 100))
                    [1%positive; 1%positive]
                    (addcommissioninfo stock_scheme None holding_broker)
                    Hne)).
  reflexivity.
Defined.

(** X13. [getposition] is stable: it returns the stored position of an
    instrument that has one and changes nothing then; in every case a
    second call returns the same position and changes nothing, and the
    positions of the other instruments are never affected. *)
Theorem getposition_stable d b :
  (forall p, positions b !! d = Some p -> getposition d b = (p, b)) /\
  getposition d (getposition d b).2 = getposition d b /\
  (forall d', d' <> d ->
              positions (getposition d b).2 !! d' = positions b !! d') /\
  cash (getposition d b).2 = cash b /\
  pending (getposition d b).2 = pending b.
Proof.
  unfold getposition, positions_getitem.
  split; [intros p ->; reflexivity|].
  destruct (positions b !! d) as [p|] eqn:E; simpl.
  - rewrite E. repeat split.
  - rewrite lookup_insert_eq. split; [reflexivity|].
    split; [|split; reflexivity].
    intros d' Hne. now apply lookup_insert_ne.
Qed.

(** ** Steps without fills *)

(** X14. On a broker without positions and without pending orders the
    step changes nothing. *)
Theorem next_idle v feeds b :
  positions b = ∅ -> pending b = [] -> next v feeds b = (b, Normal).
Proof.
  intros Hp Hq. rewrite next_no_orders by exact Hq.
  unfold sweep. rewrite Hp, map_to_list_empty. simpl.
  now destruct b.
Qed.

Lemma next_idle_witness :
  positions (init 10000 stock_scheme) = ∅ /\
  pending (init 10000 stock_scheme) = [] /\
  next Python3 (feeds_of limit_touch_bar) (init 10000 stock_scheme)
  = (init 10000 stock_scheme, Normal).
Proof.
  split; [reflexivity|]. split; [reflexivity|].
  exact (next_idle Python3 (feeds_of limit_touch_bar)
           (init 10000 stock_scheme) eq_refl eq_refl).
Defined.

Lemma process_order_unfilled v feeds r o b :
  unfilled v feeds o = true ->
  raises v feeds o = false /\
  cash (process_order v feeds r o b).1 = cash b /\
  positions (process_order v feeds r o b).1 = positions b.
Proof.
  unfold unfilled, raises, verdict, process_order.
  destruct (expire_cases o (datetime (feeds (Order.data o)) 0)) as [-> | ->];
    simpl; [now repeat split|].
  destruct (fill_rule v (feeds (Order.data o)) o) as [t [dt p | | e]];
    try discriminate.
  intros _. unfold requeue. simpl. rewrite lookup_insert_eq.
  now destruct (Order.alive _).
Qed.

Lemma pass_over_unfilled v feeds rs :
  forall b,
    NoDup rs ->
    (forall r, r ∈ rs ->
               exists o, heap b !! r = Some o /\ unfilled v feeds o = true) ->
    cash (pass_over v feeds rs b).1 = cash b /\
    positions (pass_over v feeds rs b).1 = positions b.
Proof.
  induction rs as [|r rs IH]; intros b Hnd Hall; simpl; [now split|].
  apply NoDup_cons in Hnd as [Hnotin Hnd].
  destruct (Hall r) as (o & Ho & Hu); [now left|]. rewrite Ho.
  destruct (process_order_unfilled v feeds r o b Hu) as (Hr & Hc & Hp).
  destruct (process_order_effect v feeds r o b Hr)
    as (b2 & o2 & Hproc & Hh & _).
  rewrite Hproc in *. simpl in *.
  destruct (IH b2 Hnd) as [Hc' Hp'].
  { intros r' Hr'. destruct (Hall r') as (o' & Ho' & Hu'); [now right|].
    exists o'. split; [|exact Hu'].
    rewrite Hh, lookup_insert_ne; [exact Ho'|]. intros ->. now apply Hnotin. }
  split; congruence.
Qed.

(** X15. Cash and positions move only through fills: in a step in which
    every pending order expires or stays pending, the positions are
    unchanged and the cash is the one left by the start-of-bar sweep. *)
Theorem next_without_fills v feeds b :
  queue_ok b ->
  (forall r o, r ∈ pending b -> heap b !! r = Some o ->
               unfilled v feeds o = true) ->
  (next v feeds b).2 = Normal /\
  positions (next v feeds b).1 = positions b /\
  cash (next v feeds b).1 = cash (sweep feeds b).
Proof.
  intros Hok Hu. pose proof Hok as [Hnd Hwf].
  assert (Hnr : forall r o, r ∈ pending b -> heap b !! r = Some o ->
                            raises v feeds o = false).
  { intros r o Hr Ho.
    exact (proj1 (process_order_unfilled v feeds r o b (Hu r o Hr Ho))). }
  destruct (next_as_pass_over v feeds b Hok Hnr) as (b' & Hnext & _).
  split; [now rewrite Hnext|].
  rewrite (next_is_pass_over v feeds b Hok Hnr).
  destruct (pass_over_unfilled v feeds (pending b)
              (set_pending [] (sweep feeds b)) Hnd) as [Hc Hp].
  { intros r Hr. destruct (Hwf r Hr) as [o Ho].
    exists o. split; [exact Ho | exact (Hu r o Hr Ho)]. }
  split; [exact Hp | exact Hc].
Qed.

Lemma next_without_fills_witness :
  queue_ok (one_order_broker stock_scheme stoplimit_buy_order) /\
  positions (next Python3 (feeds_of quiet_bar)
               (one_order_broker stock_scheme stoplimit_buy_order)).1 = ∅ /\
  cash (next Python3 (feeds_of quiet_bar)
          (one_order_broker stock_scheme stoplimit_buy_order)).1 = 10000.
Proof.
  assert (Hok : queue_ok (one_order_broker stock_scheme stoplimit_buy_order)).
  { split; [apply NoDup_singleton|].
    intros r Hr. apply list_elem_of_singleton in Hr as ->.
    eexists; reflexivity. }
  split; [exact Hok|].
  destruct (next_without_fills Python3 (feeds_of quiet_bar)
              (one_order_broker stock_scheme stoplimit_buy_order) Hok)
    as (_ & Hp & Hc).
  { intros r o Hr. apply list_elem_of_singleton in Hr as ->.
    intros [= <-]. reflexivity. }
  split; [exact Hp | exact Hc].
Defined.

(** ** The strategy: minimum periods and order bookkeeping *)

Lemma foldl_max_spec (l : list Z) :
  forall x,
    (foldl Z.max x l = x \/ foldl Z.max x l ∈ l) /\
    (x <= foldl Z.max x l)%Z /\
    Forall (fun y => (y <= foldl Z.max x l)%Z) l.
Proof.
  induction l as [|y l IH]; intros x; simpl.
  - split; [now left|]. split; [lia | constructor].
  - destruct (IH (Z.max x y)) as (Hin & Hle & Hall).
    split; [|split].
    + destruct Hin as [Heq | Hin]; [|right; now right].
      rewrite Heq. destruct (Z.max_spec x y) as [[_ ->] | [_ ->]];
        [right; left | now left].
    + lia.
    + constructor; [lia | exact Hall].
Qed.

Lemma py_max_spec (l : list Z) m :
  Strategy.py_max l = Some m ->
  m ∈ l /\ Forall (fun y => (y <= m)%Z) l.
Proof.
  destruct l as [|x l]; [discriminate|]. simpl. intros [= <-].
  destruct (foldl_max_spec l x) as (Hin & Hle & Hall).
  split; [|now constructor].
  destruct Hin as [-> | Hin]; [left | now right].
Qed.

Lemma oncepost_defined v minperiods lens :
  length minperiods = length lens ->
  minperiods <> [] ->
  is_Some (Strategy._oncepost_phase v minperiods lens).
Proof.
  intros Hlen Hne.
  unfold Strategy._oncepost_phase, Strategy.minperstatus, Strategy.dlens.
  rewrite Hlen, Nat.eqb_refl.
  destruct minperiods as [|x m]; [easy|].
  destruct lens as [|y k]; [discriminate|]. simpl. eauto.
Qed.

(** X16. The dispatch of [_oncepost].  With one minimum period per data
    and at least one data, the dispatch is the same under both
    interpreters: [next] is called exactly when every data is longer than
    its minimum period, [prenext] exactly when some data is shorter than
    its minimum period, and [nextstart] exactly when no data is shorter and
    some data has just reached it.  Without any data [max] raises. *)
Theorem oncepost_dispatch v minperiods lens :
  length minperiods = length lens ->
  minperiods <> [] ->
  exists ph,
    Strategy._oncepost_phase v minperiods lens = Some ph /\
    Strategy._oncepost_phase Python2 minperiods lens
    = Strategy._oncepost_phase Python3 minperiods lens /\
    (ph = Strategy.Next
     <-> Forall (fun p => (p.1 < p.2)%Z) (zip minperiods lens)) /\
    (ph = Strategy.PreNext
     <-> Exists (fun p => (p.2 < p.1)%Z) (zip minperiods lens)) /\
    (ph = Strategy.NextStart
     <-> Forall (fun p => (p.1 <= p.2)%Z) (zip minperiods lens) /\
         Exists (fun p => p.1 = p.2) (zip minperiods lens)) /\
    Strategy._oncepost_phase v [] [] = None.
Proof.
  intros Hlen Hne.
  assert (Hd : forall v', Strategy.dlens v' minperiods lens
                          = Some (uncurry Z.sub <$> zip minperiods lens)).
  { intros v'. unfold Strategy.dlens.
    rewrite Hlen, Nat.eqb_refl. now rewrite zip_with_zip. }
  set (ds := uncurry Z.sub <$> zip minperiods lens) in *.
  assert (Hds : ds <> []).
  { unfold ds. destruct minperiods as [|x m]; [easy|].
    destruct lens as [|y k]; [discriminate | discriminate]. }
  destruct (Strategy.py_max ds) as [m|] eqn:Em;
    [|destruct ds; [easy | discriminate]].
  destruct (py_max_spec ds m Em) as [Hin Hall].
  unfold Strategy._oncepost_phase, Strategy.minperstatus.
  rewrite !Hd, Em.
  eexists. split; [reflexivity|]. split; [reflexivity|].
  assert (Hmem : exists p, p ∈ zip minperiods lens /\ m = (p.1 - p.2)%Z).
  { unfold ds in Hin. apply list_elem_of_fmap in Hin as ([a c] & -> & Hp).
    exists (a, c). now split. }
  assert (Hbound : forall p, p ∈ zip minperiods lens -> (p.1 - p.2 <= m)%Z).
  { intros [a c] Hp. rewrite Forall_forall in Hall. apply Hall.
    unfold ds. apply list_elem_of_fmap. now exists (a, c). }
  destruct Hmem as (p0 & Hp0 & Hm).
  split; [|split; [|split; [|reflexivity]]].
  - destruct (Z.ltb_spec m 0); [|destruct (Z.eqb_spec m 0)].
    + split; [intros _|reflexivity].
      apply Forall_forall. intros p Hp. specialize (Hbound p Hp). lia.
    + split; [discriminate|]. rewrite Forall_forall. intros Hf.
      specialize (Hf p0 Hp0). lia.
    + split; [discriminate|]. rewrite Forall_forall. intros Hf.
      specialize (Hf p0 Hp0). lia.
  - destruct (Z.ltb_spec m 0); [|destruct (Z.eqb_spec m 0)].
    + split; [discriminate|]. rewrite Exists_exists.
      intros (p & Hp & Hlt). specialize (Hbound p Hp). lia.
    + split; [discriminate|]. rewrite Exists_exists.
      intros (p & Hp & Hlt). specialize (Hbound p Hp). lia.
    + split; [intros _|reflexivity].
      apply Exists_exists. exists p0. split; [exact Hp0 | lia].
  - destruct (Z.ltb_spec m 0); [|destruct (Z.eqb_spec m 0)].
    + split; [discriminate|]. rewrite Exists_exists.
      intros (_ & p & Hp & Heq). specialize (Hbound p Hp). lia.
    + split; [intros _|reflexivity]. split.
      * apply Forall_forall. intros p Hp. specialize (Hbound p Hp). lia.
      * apply Exists_exists. exists p0. split; [exact Hp0 | lia].
    + split; [discriminate|]. rewrite Forall_forall.
      intros (Hf & _). specialize (Hf p0 Hp0). lia.
Qed.

Lemma oncepost_dispatch_witness :
  length [14; 30]%Z = length [30; 30]%Z /\
  [14; 30]%Z <> [] /\
  Strategy._oncepost_phase Python3 [14; 30]%Z [30; 30]%Z
  = Some Strategy.NextStart.
Proof.
  assert (Hne : [14; 30]%Z <> []) by discriminate.
  split; [reflexivity|]. split; [exact Hne|].
  destruct (oncepost_dispatch Python3 [14; 30]%Z [30; 30]%Z eq_refl Hne)
    as (ph & Hph & _).
  rewrite Hph. vm_compute in Hph. symmetry. exact Hph.
Defined.

(** X17. The minimum periods of [dopostinit].  [max(l or [default])] is
    the default only when the list is empty; otherwise it is the largest
    element of the list, whatever the default, so the period the strategy
    had before is dropped as soon as an indicator has one.  The list
    [_minperiods] has one entry per data, and the dispatch of [_oncepost]
    on it and on the lengths of the same datas cannot fail unless there is
    no data. *)
Theorem minperiods_spec :
  (forall default, Strategy._minperiod [] default = default) /\
  (forall l default,
     l <> [] ->
     Strategy._minperiod l default ∈ l /\
     Forall (fun y => (y <= Strategy._minperiod l default)%Z) l) /\
  (forall dm datas mp,
     length (Strategy._minperiods dm datas mp) = length datas) /\
  (forall dm datas mp data,
     data ∈ datas -> dm !! data = None ->
     mp ∈ Strategy._minperiods dm datas mp) /\
  (forall v dm datas mp (len : DataId -> Z),
     datas <> [] ->
     is_Some (Strategy._oncepost_phase v
                (Strategy._minperiods dm datas mp) (map len datas))).
Proof.
  split; [reflexivity|]. split; [|split; [|split]].
  - intros [|x l] default Hne; [easy|]. unfold Strategy._minperiod. simpl.
    destruct (foldl_max_spec l x) as (Hin & Hle & Hall).
    split; [|now constructor].
    destruct Hin as [-> | Hin]; [left | now right].
  - intros dm datas mp. unfold Strategy._minperiods. now rewrite length_map.
  - intros dm datas mp data Hin Hnone. unfold Strategy._minperiods.
    apply list_elem_of_fmap. exists data. split; [|exact Hin].
    now rewrite Hnone.
  - intros v dm datas mp len Hne.
    apply oncepost_defined.
    + unfold Strategy._minperiods. now rewrite !length_map.
    + unfold Strategy._minperiods. now destruct datas.
Qed.

Lemma minperiods_spec_witness :
  [14; 30]%Z <> [] /\
  Strategy._minperiod [14; 30]%Z 50 = 30%Z.
Proof.
  assert (Hne : [14; 30]%Z <> []) by discriminate.
  split; [exact Hne|].
  destruct (proj1 (proj2 minperiods_spec) [14; 30]%Z 50%Z Hne) as [Hin Hall].
  apply Forall_cons in Hall as [_ Hall].
  apply Forall_cons in Hall as [H30 _].
  apply elem_of_cons in Hin as [Hin | Hin]; [lia|].
  apply list_elem_of_singleton in Hin. exact Hin.
Defined.

Lemma addnotifications_clear os :
  forall s,
    Strategy.clear
      (foldl (fun s order => Strategy._addnotification order s) s os)
    = Strategy.mk (Strategy._orders s ++ Strategy._orderspending s ++ os) [].
Proof.
  induction os as [|o os IH]; intros s; simpl.
  - unfold Strategy.clear. now rewrite app_nil_r.
  - rewrite IH. simpl. now rewrite <- !app_assoc.
Qed.

(** X18. The order bookkeeping of the strategy.  [clear] moves the orders
    notified since the last [clear] to the end of [_orders], in the order
    in which they were notified, and leaves none pending; a second [clear]
    changes nothing; no order already in [_orders] is lost or moved. *)
Theorem strategy_clear_spec s os :
  let s' := foldl (fun s order => Strategy._addnotification order s) s os in
  Strategy._orders (Strategy.clear s')
  = Strategy._orders s ++ Strategy._orderspending s ++ os /\
  Strategy._orderspending (Strategy.clear s') = [] /\
  Strategy.clear (Strategy.clear s') = Strategy.clear s' /\
  Strategy._orders s `prefix_of` Strategy._orders (Strategy.clear s').
Proof.
  intros s'. unfold s'. rewrite addnotifications_clear. simpl.
  split; [reflexivity|]. split; [reflexivity|]. split.
  - unfold Strategy.clear. simpl. now rewrite app_nil_r.
  - now apply prefix_app_r.
Qed.

(** ** The relative strength index *)

Lemma Max_zero_spec x :
  (x < 0 /\ RSI.Max x 0 = 0) \/ (0 <= x /\ RSI.Max x 0 = x).
Proof.
  unfold RSI.Max. destruct (Qgt_b 0 x) eqn:E.
  - left. split; [now apply Qgt_b_true | reflexivity].
  - right. split; [now apply Qgt_b_false | reflexivity].
Qed.

(** X19. [UpDay] and [DownDay] split the change of the data between two
    bars: both are non-negative, at most one of them is non-zero, their
    difference is the change and their sum its absolute value. *)
Theorem updown_split data data1 :
  0 <= RSI.UpDay data data1 /\
  0 <= RSI.DownDay data data1 /\
  RSI.UpDay data data1 * RSI.DownDay data data1 == 0 /\
  RSI.UpDay data data1 - RSI.DownDay data data1 == data - data1 /\
  RSI.UpDay data data1 + RSI.DownDay data data1 == Qabs (data - data1).
Proof.
  unfold RSI.UpDay, RSI.DownDay.
  destruct (Max_zero_spec (data - data1)) as [[Hu ->] | [Hu ->]];
    destruct (Max_zero_spec (data1 - data)) as [[Hd ->] | [Hd ->]];
    try lra.
  - repeat split; try lra.
    rewrite Qabs_neg by lra. lra.
  - repeat split; try lra.
    rewrite Qabs_pos by lra. lra.
  - assert (Heq : data - data1 == 0) by lra.
    repeat split; try lra.
    + rewrite Heq. lra.
    + rewrite Qabs_pos by lra. lra.
Qed.

(** X20. The boolean indicators agree with the valued ones: [UpDayBool] is
    true exactly when [UpDay] is positive, [DownDayBool] exactly when
    [DownDay] is positive; they are never both true, and both false exactly
    when the data did not move. *)
Theorem updown_bool data data1 :
  (RSI.UpDayBool data data1 = true <-> 0 < RSI.UpDay data data1) /\
  (RSI.DownDayBool data data1 = true <-> 0 < RSI.DownDay data data1) /\
  ~ (RSI.UpDayBool data data1 = true /\ RSI.DownDayBool data data1 = true) /\
  (RSI.UpDayBool data data1 = false /\ RSI.DownDayBool data data1 = false
   <-> data == data1).
Proof.
  unfold RSI.UpDayBool, RSI.DownDayBool, RSI.UpDay, RSI.DownDay.
  rewrite !Qgt_b_true, !Qgt_b_false.
  destruct (Max_zero_spec (data - data1)) as [[Hu ->] | [Hu ->]];
    destruct (Max_zero_spec (data1 - data)) as [[Hd ->] | [Hd ->]];
    repeat split; intros; try lra.
Qed.

(** ** The step under Python 3 *)

(** X22. Under Python 3 a sell StopLimit that has not triggered and meets a
    bar opening at or below its trigger stops the step with a [TypeError].
    When it is at the head of the queue, the step ends right after the
    sweep: the order has left the queue, marked triggered but neither
    filled nor notified, and the orders behind it are still queued and
    were not evaluated on this bar.  Under Python 2 the same order fills at
    the open. *)
Theorem python3_step_aborts feeds r rest o b :
  let d := feeds (Order.data o) in
  pending b = r :: rest ->
  heap b !! r = Some o ->
  not_expired o d ->
  Order.ordtype o = Order.Sell ->
  Order.exectype o = Order.StopLimit ->
  Order.triggered o = false ->
  open d 0 <= Order.created_price o ->
  next Python3 feeds b
  = (set_pending rest
       (store r (Order.set_triggered true o) (sweep feeds b)),
     Raised TypeError) /\
  pending (next Python3 feeds b).1 = rest /\
  notifs (next Python3 feeds b).1 = notifs b /\
  positions (next Python3 feeds b).1 = positions b /\
  (forall r', r' <> r ->
              heap (next Python3 feeds b).1 !! r' = heap b !! r') /\
  executes_at Python2 feeds r o b (Order.set_triggered true o)
    (datetime d 0) (open d 0).
Proof.
  intros d Hq Ho He Hs Ht Hn Hgap.
  destruct (sell_stoplimit_gap_code d o Hs Ht Hn Hgap) as [H2 H3].
  assert (Hnext : next Python3 feeds b
                  = (set_pending rest
                       (store r (Order.set_triggered true o) (sweep feeds b)),
                     Raised TypeError)).
  { unfold next. simpl. rewrite Hq. simpl. rewrite Hq, Ho.
    rewrite (process_raise Python3 feeds r o _ true TypeError He H3).
    reflexivity. }
  split; [exact Hnext|]. rewrite Hnext. simpl.
  split; [reflexivity|]. split; [reflexivity|]. split; [reflexivity|].
  split.
  - intros r' Hne. now apply lookup_insert_ne.
  - now apply process_fill.
Qed.

Lemma python3_step_aborts_witness :
  pending (one_order_broker stock_scheme gap_down_order) = [1%positive] /\
  open gap_down_bar 0 <= Order.created_price gap_down_order /\
  (next Python3 (feeds_of gap_down_bar)
        (one_order_broker stock_scheme gap_down_order)).2 = Raised TypeError /\
  pending (next Python3 (feeds_of gap_down_bar)
                (one_order_broker stock_scheme gap_down_order)).1 = [].
Proof.
  assert (Hgap : open gap_down_bar 0 <= Order.created_price gap_down_order)
    by discriminate.
  split; [reflexivity|]. split; [exact Hgap|].
  destruct (python3_step_aborts (feeds_of gap_down_bar) 1%positive []
              gap_down_order (one_order_broker stock_scheme gap_down_order)
              eq_refl eq_refl eq_refl eq_refl eq_refl eq_refl Hgap)
    as (Hnext & Hp & _).
  split; [now rewrite Hnext | exact Hp].
Defined.

(** ** The queue invariant *)

(** X23. The queue never holds an order twice and every queued reference
    has its object: this holds for a new broker and is kept by [buy],
    [sell], [cancel] and by every step that ends normally (under Python 2,
    every step). *)
Theorem queue_invariant_kept :
  (forall c ci, queue_ok (init c ci)) /\
  (forall d size price et until b,
     queue_ok b -> queue_ok (buy d size price et until b).2) /\
  (forall d size price et until b,
     queue_ok b -> queue_ok (sell d size price et until b).2) /\
  (forall r b, queue_ok b -> queue_ok (cancel r b).2) /\
  (forall feeds b, queue_ok b -> queue_ok (next Python2 feeds b).1) /\
  (forall v feeds b,
     queue_ok b -> (next v feeds b).2 = Normal ->
     queue_ok (next v feeds b).1).
Proof.
  split; [exact init_queue_ok|].
  split; [intros; now apply buy_queue_ok|].
  split; [intros; now apply sell_queue_ok|].
  split; [intros; now apply cancel_queue_ok|].
  split; [intros; now apply next_queue_ok_python2|].
  intros v feeds b Hok Hnormal.
  destruct v; [now apply next_queue_ok_python2|].
  destruct Hok as [Hnd Hwf].
  assert (Hgen : forall rs b0 tail,
            NoDup (rs ++ tail) ->
            pending b0 = rs ++ tail ->
            (forall r, r ∈ rs ++ tail -> is_Some (heap b0 !! r)) ->
            (queue_pass Python3 feeds (length rs) b0).2 = Normal ->
            queue_ok (queue_pass Python3 feeds (length rs) b0).1).
  { induction rs as [|r rs IH]; intros b0 tail Hnd0 Hq0 Hwf0 Hn0; simpl in *.
    - split; rewrite Hq0; [exact Hnd0 | exact Hwf0].
    - rewrite Hq0 in *.
      destruct (Hwf0 r) as [o Ho]; [now left|]. rewrite Ho in *.
      pose proof (process_order_frame Python3 feeds r o
                    (set_pending tail b0) rs) as Hf.
      change (set_pending (rs ++ pending (set_pending tail b0))
                (set_pending tail b0))
        with (set_pending (rs ++ tail) b0) in Hf.
      rewrite Hf in *. clear Hf.
      destruct (raises Python3 feeds o) eqn:Er.
      + exfalso. revert Hn0. unfold raises, verdict in Er.
        unfold process_order.
        destruct (expire_cases o (datetime (feeds (Order.data o)) 0))
          as [Hx | Hx]; rewrite Hx in *; simpl in *; [discriminate|].
        destruct (fill_rule Python3 (feeds (Order.data o)) o)
          as [t [dt p | | e]]; discriminate.
      + destruct (process_order_effect Python3 feeds r o
                    (set_pending tail b0) Er)
          as (b2 & o2 & Hp & Hh & Hq2 & _).
        rewrite Hp in *. simpl in *.
        apply NoDup_cons in Hnd0 as [Hnotin Hnd0].
        apply (IH _ (pending b2)); simpl.
        * rewrite Hq2. rewrite app_assoc.
          destruct (requeued Python3 feeds o);
            [|now rewrite app_nil_r].
          apply NoDup_app. split; [exact Hnd0|].
          split; [|apply NoDup_singleton].
          intros x Hx Hx'. apply list_elem_of_singleton in Hx' as ->.
          now apply Hnotin.
        * reflexivity.
        * intros x Hx. rewrite Hh.
          destruct (decide (r = x)) as [<-|Hne];
            [rewrite lookup_insert_eq; eauto|].
          rewrite lookup_insert_ne by exact Hne.
          rewrite Hq2, app_assoc in Hx.
          apply elem_of_app in Hx as [Hx | Hx].
          -- apply Hwf0. now right.
          -- destruct (requeued Python3 feeds o);
               [|now apply elem_of_nil in Hx].
             apply list_elem_of_singleton in Hx. congruence.
        * exact Hn0. }
  unfold next in *.
  apply (Hgen (pending b) (sweep feeds b) []); simpl;
    rewrite ?app_nil_r; auto.
Qed.

(** ** Defects of the step *)

(** C1. One contract of a futures instrument (margin 1000, multiplier 1, no
    commission) is carried long from a close at 100 into a bar that opens
    at 110 and closes at 120, where a Market sell closes it at 110.  The
    sweep adjusts the contract by 120 - 100.  The closed leg of [_execute]
    then subtracts [cashadjust(closed, 110, 120)] with [closed = -1], the
    closed quantity being signed like the order: it adjusts the same
    contract a second time, by 120 - 110 more, instead of giving back what
    the sweep took past the fill price.  The cash ends at 10030; one
    adjustment for the bar, from 100 to 110, gives 10010. *)
Theorem closed_leg_second_adjustment :
  held_size carried_long 1%positive = 1%Z /\
  pending carried_long = [2%positive] /\
  cash carried_long == 10000 - 1000 /\
  cash (sweep (feeds_of closing_bar) carried_long)
  == cash carried_long + (120 - 100) /\
  (exists o,
     heap carried_long !! 2%positive = Some o /\
     fill_split o 110 (sweep (feeds_of closing_bar) carried_long)
     = (0%Z, (-1)%Z) /\
     executes_at Python3 (feeds_of closing_bar) 2%positive o
       (set_pending [] (sweep (feeds_of closing_bar) carried_long)) o
       (noon 3) 110) /\
  - CommissionInfo.cashadjust round_trip_scheme (-1) 110 120 == 120 - 110 /\
  next Python3 (feeds_of closing_bar) carried_long = round_trip /\
  round_trip.2 = Normal /\
  held_size round_trip.1 1%positive = 0%Z /\
  cash round_trip.1
  == cash (sweep (feeds_of closing_bar) carried_long) + 1000 + (120 - 110) /\
  cash round_trip.1 == 10030 /\
  ~ cash round_trip.1 == 10000 + (110 - 100) /\
  cash (next Python2 (feeds_of closing_bar) carried_long).1 == 10030.
Proof.
  split; [vm_compute; reflexivity|]. split; [vm_compute; reflexivity|].
  split; [vm_compute; reflexivity|]. split; [vm_compute; reflexivity|].
  split.
  { exists (Order.accept
              (Order.create Order.Sell 1%positive 1 0 Order.Market None)).
    split; [vm_compute; reflexivity|]. split; [vm_compute; reflexivity|].
    apply process_fill_same; reflexivity. }
  split; [vm_compute; reflexivity|].
  split; [unfold round_trip, carried_long; reflexivity|].
  split; [vm_compute; reflexivity|]. split; [vm_compute; reflexivity|].
  split; [vm_compute; reflexivity|]. split; [vm_compute; reflexivity|].
  split; [|vm_compute; reflexivity].
  intros H. vm_compute in H. discriminate H.
Qed.

(** C3. The sell StopLimit with trigger 98 and limit 99 meets a bar that
    opens and closes at 100 and dips to 97.  The mirror of the buy side
    has a single branch on such a bar and leaves the order pending, its
    limit being above the trigger.  [next] tests [popen <= pclose] on the
    sell side, takes the two-branch arm and fills the order at its limit,
    99, under both interpreters; the buy twin on the same kind of bar takes
    the single branch and stays pending. *)
Theorem sell_stoplimit_doji_defect :
  Order.created_price doji_order < open doji_bar 0 /\
  low doji_bar 0 <= Order.created_price doji_order /\
  open doji_bar 0 == close doji_bar 0 /\
  Order.created_price doji_order < Order.created_pricelimit doji_order /\
  Order.created_pricelimit doji_order <= close doji_bar 0 /\
  mirrored_sell_intrabar (datetime doji_bar 0)
    (Order.created_price doji_order) (Order.created_pricelimit doji_order)
    (open doji_bar 0) (close doji_bar 0) = NoFill /\
  (forall v,
     executes_at v (feeds_of doji_bar) 1%positive doji_order
       (one_order_broker stock_scheme doji_order)
       (Order.set_triggered true doji_order) (noon 2) 99) /\
  open doji_high_bar 0 < Order.created_price doji_buy_order /\
  Order.created_price doji_buy_order <= high doji_high_bar 0 /\
  open doji_high_bar 0 == close doji_high_bar 0 /\
  Order.created_pricelimit doji_buy_order
  < Order.created_price doji_buy_order /\
  close doji_high_bar 0 <= Order.created_pricelimit doji_buy_order /\
  (forall v,
     stays_pending v (feeds_of doji_high_bar) 1%positive doji_buy_order
       (one_order_broker stock_scheme doji_buy_order)
       (Order.set_triggered true doji_buy_order)).
Proof.
  split; [reflexivity|]. split; [discriminate|]. split; [reflexivity|].
  split; [reflexivity|]. split; [discriminate|]. split; [reflexivity|].
  split.
  { intros v. apply process_fill; [reflexivity|]. now destruct v. }
  split; [reflexivity|]. split; [discriminate|]. split; [reflexivity|].
  split; [reflexivity|]. split; [discriminate|].
  intros v. apply process_nofill; [reflexivity | | reflexivity].
  now destruct v.
Qed.

(** C7. Under Python 3, with the sell StopLimit of C2 at the head of the
    queue and a Market buy behind it, on the bar that opens below the
    trigger, the step does not evaluate every pending order: the test
    against the builtin [open] raises [TypeError] inside the loop.  The
    first order has been popped and is not queued again although it is
    alive, it is neither filled nor notified; the Market order, which the
    rules would fill at the open, is never evaluated and stays queued.
    Under Python 2 the same step evaluates both orders and fills both. *)
Theorem python3_queue_pass_defect :
  queue_ok gap_then_market_broker /\
  raises Python3 (feeds_of gap_down_bar) gap_down_order = true /\
  verdict Python3 (feeds_of gap_down_bar) market_order
  = VFilled false (noon 2) 95 /\
  (next Python3 (feeds_of gap_down_bar) gap_then_market_broker).2
  = Raised TypeError /\
  pending (next Python3 (feeds_of gap_down_bar) gap_then_market_broker).1
  = [2%positive] /\
  heap (next Python3 (feeds_of gap_down_bar) gap_then_market_broker).1
    !! 1%positive = Some (Order.set_triggered true gap_down_order) /\
  Order.alive (Order.set_triggered true gap_down_order) = true /\
  heap (next Python3 (feeds_of gap_down_bar) gap_then_market_broker).1
    !! 2%positive = Some market_order /\
  notifs (next Python3 (feeds_of gap_down_bar) gap_then_market_broker).1
  = [] /\
  positions (next Python3 (feeds_of gap_down_bar) gap_then_market_broker).1
  = ∅ /\
  (next Python2 (feeds_of gap_down_bar) gap_then_market_broker).2 = Normal /\
  pending (next Python2 (feeds_of gap_down_bar) gap_then_market_broker).1
  = [] /\
  notifs (next Python2 (feeds_of gap_down_bar) gap_then_market_broker).1
  = [1%positive; 2%positive].
Proof.
  split.
  { split.
    - apply (bool_decide_unpack _). vm_compute. exact I.
    - intros r Hr. simpl in Hr.
      repeat (apply elem_of_cons in Hr as [-> | Hr]);
        [eexists; reflexivity ..|].
      now apply elem_of_nil in Hr. }
  repeat (split; [vm_compute; reflexivity|]). vm_compute. reflexivity.
Qed.
